(** * Verification of [bigcode_eval/logging_utils.py]

    A shallow embedding of the [WandbLogger] results forwarder and of the
    JSON fallback [_handle_non_serializable], with the properties of its
    specification stated and settled against the embedded code. *)

From Stdlib Require Import ZArith Lia Ascii Floats.SpecFloat.
From stdpp Require Import base option list strings.

Open Scope string_scope.
Open Scope list_scope.

(** ** Python values

    The objects that reach this module: the JSON-native kinds, tuples and
    sets, NumPy's sized integers, and opaque objects of any other class.
    Mappings are keyed by strings (option, task and metric names) and keep
    insertion order, as Python dictionaries do. *)

#[local] Unset Elimination Schemes.
Inductive pyval : Type :=
| PNone
| PBool (b : bool)
| PInt (z : Z)
| PFloat (f : spec_float)
| PStr (s : string)
| PList (xs : list pyval)
| PTuple (xs : list pyval)
| PDict (d : list (string * pyval))
| PSet (xs : list pyval)
| PNpInt64 (z : Z)
| PNpInt32 (z : Z)
| PObject (name : string).
#[local] Set Elimination Schemes.

Abbreviation dict := (list (string * pyval)).

(** Induction over values that reaches inside lists, tuples, sets and
    mappings. *)
Fixpoint pyval_rect' (P : pyval -> Type)
    (Q : list pyval -> Type) (R : dict -> Type)
    (HNone : P PNone) (HBool : forall b, P (PBool b))
    (HInt : forall z, P (PInt z)) (HFloat : forall f, P (PFloat f))
    (HStr : forall s, P (PStr s))
    (HList : forall xs, Q xs -> P (PList xs))
    (HTuple : forall xs, Q xs -> P (PTuple xs))
    (HDict : forall d, R d -> P (PDict d))
    (HSet : forall xs, Q xs -> P (PSet xs))
    (H64 : forall z, P (PNpInt64 z)) (H32 : forall z, P (PNpInt32 z))
    (HObj : forall n, P (PObject n))
    (Qnil : Q []) (Qcons : forall x xs, P x -> Q xs -> Q (x :: xs))
    (Rnil : R []) (Rcons : forall k x d, P x -> R d -> R ((k, x) :: d))
    (v : pyval) {struct v} : P v :=
  let rec := pyval_rect' P Q R HNone HBool HInt HFloat HStr HList HTuple
               HDict HSet H64 H32 HObj Qnil Qcons Rnil Rcons in
  let fix go_list (xs : list pyval) : Q xs :=
    match xs with
    | [] => Qnil
    | x :: xs' => Qcons x xs' (rec x) (go_list xs')
    end in
  let fix go_dict (d : dict) : R d :=
    match d with
    | [] => Rnil
    | (k, x) :: d' => Rcons k x d' (rec x) (go_dict d')
    end in
  match v with
  | PNone => HNone
  | PBool b => HBool b
  | PInt z => HInt z
  | PFloat f => HFloat f
  | PStr s => HStr s
  | PList xs => HList xs (go_list xs)
  | PTuple xs => HTuple xs (go_list xs)
  | PDict d => HDict d (go_dict d)
  | PSet xs => HSet xs (go_list xs)
  | PNpInt64 z => H64 z
  | PNpInt32 z => H32 z
  | PObject n => HObj n
  end.

(** ** Dictionary operations on insertion-ordered mappings *)

(** [d.get(k)] / [k in d]. *)
Fixpoint dget (k : string) (d : dict) : option pyval :=
  match d with
  | [] => None
  | (k', v) :: d' => if String.eqb k k' then Some v else dget k d'
  end.

(** [d[k] = v]: an existing key keeps its position, a new key goes last. *)
Fixpoint dset (k : string) (v : pyval) (d : dict) : dict :=
  match d with
  | [] => [(k, v)]
  | (k', v') :: d' =>
      if String.eqb k k' then (k, v) :: d' else (k', v') :: dset k v d'
  end.

(** The mapping without key [k]. *)
Fixpoint ddel (k : string) (d : dict) : dict :=
  match d with
  | [] => []
  | (k', v') :: d' =>
      if String.eqb k k' then ddel k d' else (k', v') :: ddel k d'
  end.

(** [list(d.keys())]. *)
Definition dkeys (d : dict) : list string := map fst d.

(** [d1.update(d2)]. *)
Definition dupdate (d1 d2 : dict) : dict :=
  fold_left (fun acc kv => dset (fst kv) (snd kv) acc) d2 d1.

(** ** Versions of [packaging.version]

    A version is compared through its key, as [Version._key] is built by
    [_cmpkey]: epoch, release without trailing zeros, then the pre-, post-
    and dev-release parts with their infinities.  Local version labels
    are left out. *)

Inductive pre_tag := Alpha | Beta | ReleaseCandidate.

Record Version := mkVersion {
  epoch : nat;
  release : list nat;
  pre : option (pre_tag * nat);
  post : option nat;
  dev : option nat
}.

Inductive bounded (A : Type) : Type :=
| NegativeInfinity
| Finite (a : A)
| Infinity.
Arguments NegativeInfinity {A}.
Arguments Finite {A} a.
Arguments Infinity {A}.

Definition compare_bounded {A} (cmp : A -> A -> comparison)
    (x y : bounded A) : comparison :=
  match x, y with
  | NegativeInfinity, NegativeInfinity => Eq
  | NegativeInfinity, _ => Lt
  | _, NegativeInfinity => Gt
  | Infinity, Infinity => Eq
  | Infinity, _ => Gt
  | _, Infinity => Lt
  | Finite a, Finite b => cmp a b
  end.

Definition lex (c1 c2 : comparison) : comparison :=
  match c1 with Eq => c2 | _ => c1 end.

Fixpoint compare_tuple (xs ys : list nat) : comparison :=
  match xs, ys with
  | [], [] => Eq
  | [], _ :: _ => Lt
  | _ :: _, [] => Gt
  | x :: xs', y :: ys' => lex (Nat.compare x y) (compare_tuple xs' ys')
  end.

Fixpoint drop_zeros (xs : list nat) : list nat :=
  match xs with
  | 0 :: xs' => drop_zeros xs'
  | _ => xs
  end.

Definition tag_rank (t : pre_tag) : nat :=
  match t with Alpha => 0 | Beta => 1 | ReleaseCandidate => 2 end.

Definition compare_pre (a b : pre_tag * nat) : comparison :=
  lex (Nat.compare (tag_rank (fst a)) (tag_rank (fst b)))
      (Nat.compare (snd a) (snd b)).

Definition key_release (v : Version) : list nat :=
  rev (drop_zeros (rev (release v))).

Definition key_pre (v : Version) : bounded (pre_tag * nat) :=
  match pre v, post v, dev v with
  | None, None, Some _ => NegativeInfinity
  | None, _, _ => Infinity
  | Some p, _, _ => Finite p
  end.

Definition key_post (v : Version) : bounded nat :=
  match post v with None => NegativeInfinity | Some n => Finite n end.

Definition key_dev (v : Version) : bounded nat :=
  match dev v with None => Infinity | Some n => Finite n end.

Definition compare_key (v w : Version) : comparison :=
  lex (Nat.compare (epoch v) (epoch w))
   (lex (compare_tuple (key_release v) (key_release w))
    (lex (compare_bounded compare_pre (key_pre v) (key_pre w))
     (lex (compare_bounded Nat.compare (key_post v) (key_post w))
          (compare_bounded Nat.compare (key_dev v) (key_dev w))))).

(** [v >= w] and [v < w] on versions. *)
Definition Version_ge (v w : Version) : bool :=
  match compare_key v w with Lt => false | _ => true end.

Definition Version_lt (v w : Version) : bool :=
  match compare_key v w with Lt => true | _ => false end.

(** [Version("0.13.6")] and friends: a plain release. *)
Definition plain_release (r : list nat) : Version :=
  mkVersion 0 r None None None.

Definition minimum_version : Version := plain_release [0; 13; 6].

(** ** Exceptions *)

Inductive exn : Type :=
| ModuleNotFoundError (name : string)
| AssertionError
| UnboundLocalError (name : string)
| NameError (name : string)
| AttributeError (attr : string)
| KeyError (key : string)
| TypeError (msg : string)
| RecursionError
| DanglingReference
| NonStringKey.

(** [DanglingReference] and [NonStringKey] are limits of the model, not
    Python exceptions: a location outside the heap, and a hashable value
    other than a string used as a mapping key. *)

Definition result (A : Type) : Type := (exn + A)%type.

Fixpoint traverse {A B} (f : A -> result B) (xs : list A) : result (list B) :=
  match xs with
  | [] => inr []
  | x :: xs' =>
      match f x with
      | inl e => inl e
      | inr y =>
          match traverse f xs' with
          | inl e => inl e
          | inr ys => inr (y :: ys)
          end
      end
  end.

(** ** JSON documents and the [json] encoder

    [json.dumps] and [json.loads] are taken at the level of the document
    they write and read. *)

#[local] Unset Elimination Schemes.
Inductive json : Type :=
| JNull
| JBool (b : bool)
| JInt (z : Z)
| JFloat (f : spec_float)
| JString (s : string)
| JArray (xs : list json)
| JObject (members : list (string * json)).
#[local] Set Elimination Schemes.

(** The kinds [JSONEncoder] writes without calling [default]. *)
Definition natively_serializable (o : pyval) : bool :=
  match o with
  | PNone | PBool _ | PInt _ | PFloat _ | PStr _
  | PList _ | PTuple _ | PDict _ => true
  | PSet _ | PNpInt64 _ | PNpInt32 _ | PObject _ => false
  end.

(** [JSONEncoder.iterencode]: the native kinds are written directly, any
    other object goes through [default] and the result is encoded in its
    place; without [default] that is a [TypeError].  [depth] is the
    interpreter's remaining recursion depth.  The keys of a [PDict] are
    strings, written as they are ([json_encode_tree] below has the keys
    of other kinds), and an integer is written whatever its size: the
    interpreter's limit on the digits of an integer is not modelled. *)
Fixpoint json_encode (depth : nat) (default : option (pyval -> pyval))
    (o : pyval) : result json :=
  match depth with
  | 0 => inl RecursionError
  | S depth' =>
      match o with
      | PStr s => inr (JString s)
      | PNone => inr JNull
      | PBool b => inr (JBool b)
      | PInt z => inr (JInt z)
      | PFloat f => inr (JFloat f)
      | PList xs | PTuple xs =>
          match traverse (json_encode depth' default) xs with
          | inl e => inl e
          | inr js => inr (JArray js)
          end
      | PDict d =>
          match traverse (fun kv =>
                   match json_encode depth' default (snd kv) with
                   | inl e => inl e
                   | inr j => inr (fst kv, j)
                   end) d with
          | inl e => inl e
          | inr ms => inr (JObject ms)
          end
      | _ =>
          match default with
          | None => inl (TypeError "Object is not JSON serializable")
          | Some f => json_encode depth' default (f o)
          end
      end
  end.

(** [dict(pairs)]: a repeated key keeps its first position and its last
    value. *)
Definition dict_of_items (items : list (string * pyval)) : dict :=
  fold_left (fun acc kv => dset (fst kv) (snd kv) acc) items [].

(** [json.loads] on a document. *)
Fixpoint json_decode (j : json) : pyval :=
  match j with
  | JNull => PNone
  | JBool b => PBool b
  | JInt z => PInt z
  | JFloat f => PFloat f
  | JString s => PStr s
  | JArray xs => PList (map json_decode xs)
  | JObject ms =>
      PDict (dict_of_items (map (fun m => (fst m, json_decode (snd m))) ms))
  end.

(** ** The interpreter state

    Objects live in a heap of trees: a location holds one object together
    with everything nested in it, and a nested object is reached from its
    root by a path of keys.  The tracking SDK is seen through the calls
    made on it, recorded in order. *)

Abbreviation loc := nat.

Inductive event : Type :=
| EvWarning (e : exn)
| EvInfo (step_key step : pyval)
| EvRequire (feature : string)
| EvInit (kwargs : dict)
| EvDefineMetric (run : nat) (name : pyval) (step_metric : option pyval)
    (hidden step_sync : bool)
| EvConfigUpdate (run : nat) (payload : dict) (allow_val_change : bool)
| EvLog (run : nat) (data : pyval)
| EvLogArtifact (run : nat) (name type file : string) (content : json)
    (aliases : list string).

(** [wandb_installed] is the installed SDK's version, [wandb_run] the
    process-wide [wandb.run], [frame_wandb] the local name [wandb] of the
    constructor's frame, and the [self_] fields are the attributes of the
    logger, unset until assigned. *)
Record state := mkState {
  heap : list pyval;
  wandb_installed : option Version;
  wandb_run : option nat;
  runs_started : nat;
  recursion_limit : nat;
  events : list event;
  frame_wandb : option Version;
  self_wandb_args : option dict;
  self_step : option pyval;
  self_step_key : option pyval;
  self_run : option nat;
  self_printer : option unit;
  self_results : option loc;
  self_task_names : option (list string);
  self_wandb_results : option loc
}.

Definition set_heap (x : list pyval) (s : state) : state :=
  mkState x (wandb_installed s) (wandb_run s) (runs_started s)
    (recursion_limit s) (events s) (frame_wandb s) (self_wandb_args s)
    (self_step s) (self_step_key s) (self_run s) (self_printer s)
    (self_results s) (self_task_names s) (self_wandb_results s).

Definition set_wandb_run (x : option nat) (s : state) : state :=
  mkState (heap s) (wandb_installed s) x (runs_started s) (recursion_limit
    s) (events s) (frame_wandb s) (self_wandb_args s) (self_step s)
    (self_step_key s) (self_run s) (self_printer s) (self_results s)
    (self_task_names s) (self_wandb_results s).

Definition set_runs_started (x : nat) (s : state) : state :=
  mkState (heap s) (wandb_installed s) (wandb_run s) x (recursion_limit s)
    (events s) (frame_wandb s) (self_wandb_args s) (self_step s)
    (self_step_key s) (self_run s) (self_printer s) (self_results s)
    (self_task_names s) (self_wandb_results s).

Definition set_events (x : list event) (s : state) : state :=
  mkState (heap s) (wandb_installed s) (wandb_run s) (runs_started s)
    (recursion_limit s) x (frame_wandb s) (self_wandb_args s) (self_step s)
    (self_step_key s) (self_run s) (self_printer s) (self_results s)
    (self_task_names s) (self_wandb_results s).

Definition set_frame_wandb (x : option Version) (s : state) : state :=
  mkState (heap s) (wandb_installed s) (wandb_run s) (runs_started s)
    (recursion_limit s) (events s) x (self_wandb_args s) (self_step s)
    (self_step_key s) (self_run s) (self_printer s) (self_results s)
    (self_task_names s) (self_wandb_results s).

Definition set_self_wandb_args (x : option dict) (s : state) : state :=
  mkState (heap s) (wandb_installed s) (wandb_run s) (runs_started s)
    (recursion_limit s) (events s) (frame_wandb s) x (self_step s)
    (self_step_key s) (self_run s) (self_printer s) (self_results s)
    (self_task_names s) (self_wandb_results s).

Definition set_self_step (x : option pyval) (s : state) : state :=
  mkState (heap s) (wandb_installed s) (wandb_run s) (runs_started s)
    (recursion_limit s) (events s) (frame_wandb s) (self_wandb_args s) x
    (self_step_key s) (self_run s) (self_printer s) (self_results s)
    (self_task_names s) (self_wandb_results s).

Definition set_self_step_key (x : option pyval) (s : state) : state :=
  mkState (heap s) (wandb_installed s) (wandb_run s) (runs_started s)
    (recursion_limit s) (events s) (frame_wandb s) (self_wandb_args s)
    (self_step s) x (self_run s) (self_printer s) (self_results s)
    (self_task_names s) (self_wandb_results s).

Definition set_self_run (x : option nat) (s : state) : state :=
  mkState (heap s) (wandb_installed s) (wandb_run s) (runs_started s)
    (recursion_limit s) (events s) (frame_wandb s) (self_wandb_args s)
    (self_step s) (self_step_key s) x (self_printer s) (self_results s)
    (self_task_names s) (self_wandb_results s).

Definition set_self_printer (x : option unit) (s : state) : state :=
  mkState (heap s) (wandb_installed s) (wandb_run s) (runs_started s)
    (recursion_limit s) (events s) (frame_wandb s) (self_wandb_args s)
    (self_step s) (self_step_key s) (self_run s) x (self_results s)
    (self_task_names s) (self_wandb_results s).

Definition set_self_results (x : option loc) (s : state) : state :=
  mkState (heap s) (wandb_installed s) (wandb_run s) (runs_started s)
    (recursion_limit s) (events s) (frame_wandb s) (self_wandb_args s)
    (self_step s) (self_step_key s) (self_run s) (self_printer s) x
    (self_task_names s) (self_wandb_results s).

Definition set_self_task_names (x : option (list string)) (s : state) :
    state :=
  mkState (heap s) (wandb_installed s) (wandb_run s) (runs_started s)
    (recursion_limit s) (events s) (frame_wandb s) (self_wandb_args s)
    (self_step s) (self_step_key s) (self_run s) (self_printer s)
    (self_results s) x (self_wandb_results s).

Definition set_self_wandb_results (x : option loc) (s : state) : state :=
  mkState (heap s) (wandb_installed s) (wandb_run s) (runs_started s)
    (recursion_limit s) (events s) (frame_wandb s) (self_wandb_args s)
    (self_step s) (self_step_key s) (self_run s) (self_printer s)
    (self_results s) (self_task_names s) x.

(** ** The monad of statements: state, and an exception or a value *)

Definition M (A : Type) : Type := state -> state * result A.

Definition ret {A} (a : A) : M A := fun s => (s, inr a).

Definition raise {A} (e : exn) : M A := fun s => (s, inl e).

Definition bind {A B} (m : M A) (k : A -> M B) : M B :=
  fun s =>
    match m s with
    | (s', inl e) => (s', inl e)
    | (s', inr a) => k a s'
    end.

Declare Scope py_scope.
Delimit Scope py_scope with py.
Notation "'let*' x ':=' m 'in' k" := (bind m (fun x => k))
  (at level 10, x name, m at level 100, k at level 200) : py_scope.
Notation "m ';;;' k" := (bind m (fun _ => k))
  (at level 100, k at level 200, right associativity) : py_scope.
Open Scope py_scope.

Definition gets {A} (f : state -> A) : M A := fun s => (s, inr (f s)).

Definition modify (f : state -> state) : M unit := fun s => (f s, inr tt).

(** [try: body / except Exception as e: handler e]. *)
Definition try_except {A} (body : M A) (handler : exn -> M A) : M A :=
  fun s =>
    match body s with
    | (s', inl e) => handler e s'
    | (s', inr a) => (s', inr a)
    end.

(** [for x in xs: body x]. *)
Fixpoint for_each {A} (xs : list A) (body : A -> M unit) : M unit :=
  match xs with
  | [] => ret tt
  | x :: xs' => body x ;;; for_each xs' body
  end.

(** Reading an attribute of [self] that may not have been assigned. *)
Definition getattr {A} (name : string) (field : state -> option A) : M A :=
  fun s =>
    match field s with
    | Some a => (s, inr a)
    | None => (s, inl (AttributeError name))
    end.

Definition emit (e : event) : M unit :=
  modify (fun s => set_events (events s ++ [e]) s).

(** *** Heap accesses *)

Definition alloc (v : pyval) : M loc :=
  fun s => (set_heap (heap s ++ [v]) s, inr (length (heap s))).

Definition load (l : loc) : M pyval :=
  fun s =>
    match heap s !! l with
    | Some v => (s, inr v)
    | None => (s, inl DanglingReference)
    end.

Definition store (l : loc) (v : pyval) : M unit :=
  modify (fun s => set_heap (<[l := v]> (heap s)) s).

(** [copy.deepcopy(v)]: a new object, equal to [v], sharing nothing. *)
Definition deepcopy (v : pyval) : M loc := alloc v.

(** *** Operations on objects *)

(** [o.get(k, default)]. *)
Definition py_get (o : pyval) (k : string) (default : pyval) : M pyval :=
  match o with
  | PDict d => ret (match dget k d with Some v => v | None => default end)
  | _ => raise (AttributeError "get")
  end.

(** [o.items()], read in order. *)
Definition py_items (o : pyval) : M (list (string * pyval)) :=
  match o with
  | PDict d => ret d
  | _ => raise (AttributeError "items")
  end.

(** [list(o.keys())]. *)
Definition py_keys (o : pyval) : M (list string) :=
  match o with
  | PDict d => ret (dkeys d)
  | _ => raise (AttributeError "keys")
  end.

(** [for key in o], on a mapping. *)
Definition py_iter (o : pyval) : M (list string) :=
  match o with
  | PDict d => ret (dkeys d)
  | _ => raise (TypeError "object is not iterable")
  end.

(** [o[k] = v] on the object at [l]. *)
Definition setitem (l : loc) (k : string) (v : pyval) : M unit :=
  let* o := load l in
  match o with
  | PDict d => store l (PDict (dset k v d))
  | _ => raise (TypeError "object does not support item assignment")
  end.

(** [o.pop(k)] on the object at [l]. *)
Definition pop (l : loc) (k : string) : M pyval :=
  let* o := load l in
  match o with
  | PDict d =>
      match dget k d with
      | Some v => store l (PDict (ddel k d)) ;;; ret v
      | None => raise (KeyError k)
      end
  | PList _ | PSet _ => raise (TypeError "pop")
  | _ => raise (AttributeError "pop")
  end.

(** [o[k1].pop(k2)] on the object at [l]: the nested mapping is changed
    in place, inside its root. *)
Definition pop_in (l : loc) (k1 k2 : string) : M pyval :=
  let* o := load l in
  match o with
  | PDict d =>
      match dget k1 d with
      | Some (PDict t) =>
          match dget k2 t with
          | Some v => store l (PDict (dset k1 (PDict (ddel k2 t)) d)) ;;; ret v
          | None => raise (KeyError k2)
          end
      | Some (PList _) | Some (PSet _) => raise (TypeError "pop")
      | Some _ => raise (AttributeError "pop")
      | None => raise (KeyError k1)
      end
  | _ => raise (TypeError "object is not subscriptable")
  end.

(** A value used as a mapping key. *)
Definition as_key (v : pyval) : M string :=
  match v with
  | PStr k => ret k
  | PList _ | PDict _ | PSet _ => raise (TypeError "unhashable type")
  | _ => raise NonStringKey
  end.

Definition assert_ (b : bool) : M unit :=
  if b then ret tt else raise AssertionError.

Definition json_dumps (o : pyval) (default : option (pyval -> pyval))
    : M json :=
  fun s => (s, json_encode (recursion_limit s) default o).

(** *** The tracking SDK *)

(** [import wandb] inside the constructor binds the constructor's local
    name. *)
Definition import_wandb : M unit :=
  fun s =>
    match wandb_installed s with
    | Some v => (set_frame_wandb (Some v) s, inr tt)
    | None => (s, inl (ModuleNotFoundError "wandb"))
    end.

(** Reading the local name [wandb] in the constructor. *)
Definition local_wandb : M Version :=
  fun s =>
    match frame_wandb s with
    | Some v => (s, inr v)
    | None => (s, inl (UnboundLocalError "wandb"))
    end.

(** The names bound at module level by the file's imports and
    definitions. *)
Definition module_globals : list string :=
  ["copy"; "logging"; "Any"; "Dict"; "List"; "Literal"; "Optional";
   "Tuple"; "Union"; "np"; "Version"; "json"; "logger";
   "get_wandb_printer"; "WandbLogger"; "_handle_non_serializable"].

(** Reading a global name in a method. *)
Definition load_global (name : string) : M unit :=
  if existsb (String.eqb name) module_globals then ret tt
  else raise (NameError name).

(** [wandb.init] with the keyword arguments [kwargs] starts a run and
    makes it [wandb.run].  The SDK is taken to accept the arguments it is
    given: what it does with them, refusing a name it does not know
    included, is not modelled. *)
Definition wandb_init (kwargs : dict) : M nat :=
  let* r := gets runs_started in
  modify (fun s => set_wandb_run (Some r) (set_runs_started (S r) s)) ;;;
  emit (EvInit kwargs) ;;;
  ret r.

(** [get_wandb_printer()]: its imports need the SDK.  An installed SDK is
    taken to provide the modules and names imported. *)
Definition get_wandb_printer : M unit :=
  let* installed := gets wandb_installed in
  match installed with
  | Some _ => ret tt
  | None => raise (ModuleNotFoundError "wandb")
  end.

(** [Config.update(payload, allow_val_change=True)] on a persisted
    configuration: every key of the payload is set, and an existing value
    may change. *)
Definition config_update (persisted payload : dict) : dict :=
  dupdate persisted payload.

(** The run's persisted configuration after the calls recorded in [evs].
    Updates that do not allow value changes are never made by this module
    and are left uninterpreted. *)
Definition persisted_config (run : nat) (initial : dict) (evs : list event)
    : dict :=
  fold_left (fun cfg e =>
      match e with
      | EvConfigUpdate r payload true =>
          if Nat.eqb r run then config_update cfg payload else cfg
      | _ => cfg
      end) evs initial.

(** ** The results forwarder *)

Section Forwarder.

(** The interpreter's [str] (also what an f-string writes for a value). *)
Variable py_str : pyval -> string.

(** [_handle_non_serializable(o)]. *)
Definition _handle_non_serializable (o : pyval) : pyval :=
  match o with
  | PNpInt64 z | PNpInt32 z => PInt z
  | PSet xs => PList xs
  | _ => PStr (py_str o)
  end.

(** [self.wandb_args.pop(k, default)]. *)
Definition args_pop (k : string) (default : pyval) : M pyval :=
  let* args := getattr "wandb_args" self_wandb_args in
  modify (set_self_wandb_args (Some (ddel k args))) ;;;
  ret (match dget k args with Some v => v | None => default end).

(** [WandbLogger.__init__(self, **kwargs)]. *)
Definition __init__ (kwargs : dict) : M unit :=
  modify (set_frame_wandb None) ;;;
  try_except
    (import_wandb ;;;
     let* wandb := local_wandb in
     assert_ (Version_ge wandb minimum_version) ;;;
     let* wandb := local_wandb in
     if Version_lt wandb minimum_version
     then emit (EvRequire "report-editing:v0")
     else ret tt)
    (fun e => emit (EvWarning e)) ;;;
  modify (set_self_wandb_args (Some kwargs)) ;;;
  let* step := args_pop "step" (PInt 0) in
  modify (set_self_step (Some step)) ;;;
  let* step_key := args_pop "step_key" (PStr "train/step") in
  modify (set_self_step_key (Some step_key)) ;;;
  let* step_key := getattr "step_key" self_step_key in
  let* step := getattr "step" self_step in
  emit (EvInfo step_key step) ;;;
  local_wandb ;;;
  let* active := gets wandb_run in
  match active with
  | None =>
      let* args := getattr "wandb_args" self_wandb_args in
      let* run := wandb_init args in
      modify (set_self_run (Some run))
  | Some run => modify (set_self_run (Some run))
  end ;;;
  let* run := getattr "run" self_run in
  let* step_key := getattr "step_key" self_step_key in
  emit (EvDefineMetric run step_key None true false) ;;;
  let* run := getattr "run" self_run in
  let* step_key := getattr "step_key" self_step_key in
  emit (EvDefineMetric run (PStr "evaluation/*") (Some step_key) false true) ;;;
  get_wandb_printer ;;;
  modify (set_self_printer (Some tt)).

(** [WandbLogger.post_init(self, results)]; [results] is the caller's
    object. *)
Definition post_init (results : loc) : M unit :=
  let* bundle := load results in
  let* copied := deepcopy bundle in
  modify (set_self_results (Some copied)) ;;;
  let* bundle := load results in
  let* tasks := py_get bundle "results" (PDict []) in
  let* names := py_keys tasks in
  modify (set_self_task_names (Some names)).

(** [f"{task_name}/{metric_name}"]. *)
Definition metric_key (task_name metric_name : string) : string :=
  task_name +:+ "/" +:+ metric_name.

(** [WandbLogger._sanitize_results_dict(self)]; the result is the location
    of [_results]. *)
Definition _sanitize_results_dict : M loc :=
  let* stored := getattr "results" self_results in
  let* bundle := load stored in
  let* tasks := py_get bundle "results" (PDict []) in
  let* _results := deepcopy tasks in
  let* copy_of := load _results in
  let* tmp_results := deepcopy copy_of in
  let* tmp := load tmp_results in
  let* task_items := py_items tmp in
  for_each task_items (fun task =>
    let task_name := fst task in
    let task_results := snd task in
    let* metric_items := py_items task_results in
    for_each metric_items (fun metric =>
      let metric_name := fst metric in
      let metric_value := snd metric in
      setitem _results (metric_key task_name metric_name) metric_value ;;;
      pop_in _results task_name metric_name ;;;
      ret tt)) ;;;
  let* task_names := getattr "task_names" self_task_names in
  for_each task_names (fun task => pop _results task ;;; ret tt) ;;;
  ret _results.

(** [WandbLogger._log_results_as_artifact(self)]. *)
Definition _log_results_as_artifact : M unit :=
  let* stored := getattr "results" self_results in
  let* bundle := load stored in
  let* dumped := json_dumps bundle (Some _handle_non_serializable) in
  load_global "wandb" ;;;
  let* run := getattr "run" self_run in
  let* step_key := getattr "step_key" self_step_key in
  let* step := getattr "step" self_step in
  emit (EvLogArtifact run "results" "eval_results" "results.json" dumped
          ["latest"; py_str step_key +:+ "_" +:+ py_str step]).

(** [WandbLogger.log_eval_result(self)]. *)
Definition log_eval_result : M unit :=
  let* run := getattr "run" self_run in
  let* stored := getattr "results" self_results in
  let* bundle := load stored in
  let* config := py_get bundle "config" (PDict []) in
  emit (EvConfigUpdate run [("bigcode_eval", config)] true) ;;;
  let* flat := _sanitize_results_dict in
  modify (set_self_wandb_results (Some flat)) ;;;
  let* wandb_results := getattr "wandb_results" self_wandb_results in
  let* mapping := load wandb_results in
  let* keys := py_iter mapping in
  for_each keys (fun key =>
    let* run := getattr "run" self_run in
    let* step_key := getattr "step_key" self_step_key in
    emit (EvDefineMetric run (PStr key) (Some step_key) false true)) ;;;
  let* step := getattr "step" self_step in
  let* wandb_results := getattr "wandb_results" self_wandb_results in
  let* step_key := getattr "step_key" self_step_key in
  let* k := as_key step_key in
  setitem wandb_results k step ;;;
  let* run := getattr "run" self_run in
  let* wandb_results := getattr "wandb_results" self_wandb_results in
  let* mapping := load wandb_results in
  emit (EvLog run mapping) ;;;
  _log_results_as_artifact.

End Forwarder.

(** ** The flattening loops read as functions on the mapping [_results]

    What the loops of [_sanitize_results_dict] do to the one object they
    write, with the first exception raised. *)

Fixpoint fold_result {A} (f : dict -> A -> result dict) (xs : list A)
    (d : dict) : result dict :=
  match xs with
  | [] => inr d
  | x :: xs' =>
      match f d x with
      | inl e => inl e
      | inr d' => fold_result f xs' d'
      end
  end.

Definition pop_in_dict (k1 k2 : string) (d : dict) : result dict :=
  match dget k1 d with
  | Some (PDict t) =>
      match dget k2 t with
      | Some _ => inr (dset k1 (PDict (ddel k2 t)) d)
      | None => inl (KeyError k2)
      end
  | Some (PList _) | Some (PSet _) => inl (TypeError "pop")
  | Some _ => inl (AttributeError "pop")
  | None => inl (KeyError k1)
  end.

Definition pop_dict (d : dict) (k : string) : result dict :=
  match dget k d with
  | Some _ => inr (ddel k d)
  | None => inl (KeyError k)
  end.

Definition flatten_metric (task_name : string) (d : dict)
    (metric : string * pyval) : result dict :=
  pop_in_dict task_name (fst metric)
    (dset (metric_key task_name (fst metric)) (snd metric) d).

Definition flatten_task (d : dict) (task : string * pyval) : result dict :=
  match snd task with
  | PDict metrics => fold_result (flatten_metric (fst task)) metrics d
  | _ => inl (AttributeError "items")
  end.

(** The outcome of [_sanitize_results_dict] on the stored task mapping
    [tasks] with the recorded [names]. *)
Definition sanitize_outcome (tasks : pyval) (names : option (list string))
    : result dict :=
  match tasks with
  | PDict ts =>
      match fold_result flatten_task ts ts with
      | inl e => inl e
      | inr d =>
          match names with
          | Some ns => fold_result pop_dict ns d
          | None => inl (AttributeError "task_names")
          end
      end
  | _ => inl (AttributeError "items")
  end.

(** The entries one task contributes, and the tasks once their metrics
    have been popped. *)
Definition task_entries (task_name : string) (metrics : dict) : dict :=
  map (fun metric => (metric_key task_name (fst metric), snd metric)) metrics.

Definition emptied (tasks : dict) : dict :=
  map (fun task => (fst task, PDict [])) tasks.

(** The flattened mapping written out: the entries of every task, task
    by task. *)
Definition flat_entries (tasks : dict) : dict :=
  flat_map (fun task =>
    match snd task with
    | PDict metrics => task_entries (fst task) metrics
    | _ => []
    end) tasks.

(** [m] only writes the mapping at [l], as [f] describes. *)
Definition cell_run (l : loc) (m : M unit) (f : dict -> result dict) : Prop :=
  forall s d, heap s !! l = Some (PDict d) ->
    match f d with
    | inr d' => m s = (set_heap (<[l := PDict d']> (heap s)) s, inr tt)
    | inl e => exists o, m s = (set_heap (<[l := o]> (heap s)) s, inl e)
    end.

(** The task mapping [self.results.get("results", dict())] reads in the
    stored bundle [b]. *)
Definition stored_tasks (b : dict) : pyval :=
  match dget "results" b with Some v => v | None => PDict [] end.

(** A task whose value is a mapping with distinct metric names. *)
Definition task_ok (task : string * pyval) : Prop :=
  exists metrics, snd task = PDict metrics /\ NoDup (dkeys metrics).

(** The character "/" occurs in [s]. *)
Fixpoint has_slash (s : string) : bool :=
  match s with
  | EmptyString => false
  | String c s' => Ascii.eqb c "/"%char || has_slash s'
  end.

(** A process with the objects [h] in memory, before any logger exists:
    no attribute assigned, no SDK call made, the default recursion
    limit. *)
Definition initial_state (h : list pyval) (installed : option Version)
    (active : option nat) : state :=
  mkState h installed active 0 1000 [] None None None None None None None
    None None.

(** The configuration [self.results.get("config", {})] reads in the stored
    bundle [b]. *)
Definition stored_config (b : dict) : pyval :=
  match dget "config" b with Some v => v | None => PDict [] end.

(** The [define_metric] calls of [log_eval_result], one per flattened
    key. *)
Definition metric_events (run : nat) (step_key : pyval) (keys : list string)
    : list event :=
  map (fun key => EvDefineMetric run (PStr key) (Some step_key) false true)
      keys.

(** The exception that ends [_log_results_as_artifact] on a stored
    bundle: the encoder's own, or else the one raised where the name
    [wandb] is read. *)
Definition artifact_error (py_str : pyval -> string) (limit : nat)
    (bundle : pyval) : exn :=
  match json_encode limit (Some (_handle_non_serializable py_str)) bundle with
  | inl e => e
  | inr _ => NameError "wandb"
  end.

(** The operations a caller makes on a constructed logger, and a caller
    that makes them one after the other, going on after an exception. *)
Inductive operation : Type :=
| OpPostInit (results : loc)
| OpLogEvalResult
| OpSanitizeResultsDict
| OpLogResultsAsArtifact.

Definition run_operation (py_str : pyval -> string) (op : operation)
    : M unit :=
  match op with
  | OpPostInit results => post_init results
  | OpLogEvalResult => log_eval_result py_str
  | OpSanitizeResultsDict => _sanitize_results_dict ;;; ret tt
  | OpLogResultsAsArtifact => _log_results_as_artifact py_str
  end.

Fixpoint run_operations (py_str : pyval -> string) (ops : list operation)
    (s : state) : state :=
  match ops with
  | [] => s
  | op :: ops' => run_operations py_str ops' (fst (run_operation py_str op s))
  end.

(** The first [n] objects of the heap are the same in [s'] as in [s]. *)
Definition preserved (n : nat) (s s' : state) : Prop :=
  n <= length (heap s') /\
  forall l, l < n -> heap s' !! l = heap s !! l.

(** From a state where [P] holds, [m] leaves the first [n] objects alone,
    and [Q] holds of its value and final state. *)
Definition frame {A} (n : nat) (P : state -> Prop) (m : M A)
    (Q : A -> state -> Prop) : Prop :=
  forall s, n <= length (heap s) -> P s ->
    preserved n s (fst (m s)) /\
    match snd (m s) with inr a => Q a (fst (m s)) | inl _ => True end.

(** The flattened mapping a call of [_sanitize_results_dict] returns from
    [s], or the exception it raises. *)
Definition flattened (s : state) : result (option pyval) :=
  match _sanitize_results_dict s with
  | (s', inr l) => inr (heap s' !! l)
  | (_, inl e) => inl e
  end.

(** A stand-in for the interpreter's [str] in the examples: an object
    prints as its name, a string as itself. *)
Definition name_str (o : pyval) : string :=
  match o with
  | PObject name => name
  | PStr s => s
  | _ => "..."
  end.

(** The specification's example bundle: one task with two metrics, and a
    configuration. *)
Definition example_tasks : dict :=
  [("taskA", PDict [("acc", PFloat (S754_finite false 1 (-1)));
                    ("acc_stderr", PFloat (S754_finite false 1 (-3)))])].

Definition example_bundle : dict :=
  [("results", PDict example_tasks); ("config", PDict [("seed", PInt 0)])].

(** What the constructor takes out of its keyword arguments, and what it
    leaves. *)
Definition step_of (kwargs : dict) : pyval :=
  match dget "step" kwargs with Some v => v | None => PInt 0 end.

Definition step_key_of (kwargs : dict) : pyval :=
  match dget "step_key" kwargs with
  | Some v => v
  | None => PStr "train/step"
  end.

Definition remaining_kwargs (kwargs : dict) : dict :=
  ddel "step_key" (ddel "step" kwargs).

(** The warning of the constructor's version check. *)
Definition version_warning (v : Version) : list event :=
  if Version_ge v minimum_version then [] else [EvWarning AssertionError].

(** The calls of [wandb.require] and of [wandb.init] among recorded
    events. *)
Definition require_calls (evs : list event) : list string :=
  flat_map (fun e => match e with EvRequire f => [f] | _ => [] end) evs.

Definition init_calls (evs : list event) : list dict :=
  flat_map (fun e => match e with EvInit kw => [kw] | _ => [] end) evs.

(** The tests of the fallback, in the order it makes them. *)
Definition isinstance_sized_int (o : pyval) : option Z :=
  match o with
  | PNpInt64 z | PNpInt32 z => Some z
  | _ => None
  end.

Definition isinstance_set (o : pyval) : option (list pyval) :=
  match o with
  | PSet xs => Some xs
  | _ => None
  end.

(** How deep a value nests. *)
Fixpoint height (o : pyval) : nat :=
  match o with
  | PList xs | PTuple xs | PSet xs =>
      S (fold_right (fun x acc => Nat.max (height x) acc) 0 xs)
  | PDict d =>
      S (fold_right (fun kv acc => Nat.max (height (snd kv)) acc) 0 d)
  | _ => 1
  end.

(** No string occurs twice in [ks]. *)
Fixpoint nodupb (ks : list string) : bool :=
  match ks with
  | [] => true
  | k :: ks' => negb (existsb (String.eqb k) ks') && nodupb ks'
  end.

(** Every mapping inside a value has distinct keys, as every Python
    dictionary has. *)
Fixpoint keys_distinct (o : pyval) : bool :=
  match o with
  | PList xs | PTuple xs | PSet xs => forallb keys_distinct xs
  | PDict d =>
      nodupb (dkeys d) && forallb (fun kv => keys_distinct (snd kv)) d
  | _ => true
  end.

(** A value made of JSON's own kinds only: no tuple, no set, no sized
    integer, no other object. *)
Fixpoint plain (o : pyval) : bool :=
  match o with
  | PNone | PBool _ | PInt _ | PFloat _ | PStr _ => true
  | PList xs => forallb plain xs
  | PDict d => forallb (fun kv => plain (snd kv)) d
  | PTuple _ | PSet _ | PNpInt64 _ | PNpInt32 _ | PObject _ => false
  end.

(** What a value reads back as from the artifact: sized integers as
    integers, sets and tuples as lists, other objects as their string. *)
Fixpoint decoded (py_str : pyval -> string) (o : pyval) : pyval :=
  match o with
  | PNone | PBool _ | PInt _ | PFloat _ | PStr _ => o
  | PNpInt64 z | PNpInt32 z => PInt z
  | PList xs | PTuple xs | PSet xs => PList (map (decoded py_str) xs)
  | PDict d => PDict (map (fun kv => (fst kv, decoded py_str (snd kv))) d)
  | PObject _ => PStr (py_str o)
  end.

(** ** Bundles whose mappings have keys of any hashable kind

    The bundle the forwarder handles is keyed by names, and [PDict] holds
    such mappings.  [json.dumps] may also be given mappings keyed by other
    hashable values; a [pytree] is a bundle in which they can occur. *)

#[local] Unset Elimination Schemes.
Inductive pytree : Type :=
| TValue (o : pyval)
| TList (xs : list pytree)
| TTuple (xs : list pytree)
| TDict (items : list (pyval * pytree)).
#[local] Set Elimination Schemes.

(** The keys [JSONEncoder] accepts: strings, and the numbers, booleans
    and [None] it writes as strings. *)
Definition key_acceptable (k : pyval) : bool :=
  match k with
  | PStr _ | PInt _ | PFloat _ | PBool _ | PNone => true
  | _ => false
  end.

(** A member's key as the encoder writes it, [number_text] being the text
    of a number.  Any other key is a [TypeError]; [default] is not
    consulted for keys. *)
Definition json_key (number_text : pyval -> string) (k : pyval)
    : result string :=
  match k with
  | PStr s => inr s
  | PBool true => inr "true"
  | PBool false => inr "false"
  | PNone => inr "null"
  | PInt _ | PFloat _ => inr (number_text k)
  | _ => inl (TypeError "keys must be str, int, float, bool or None")
  end.

(** [JSONEncoder.iterencode] on such a bundle: of each member the key is
    written first, then the value. *)
Fixpoint json_encode_tree (number_text : pyval -> string) (depth : nat)
    (default : option (pyval -> pyval)) (t : pytree) : result json :=
  match depth with
  | 0 => inl RecursionError
  | S depth' =>
      match t with
      | TValue o => json_encode depth default o
      | TList xs | TTuple xs =>
          match traverse (json_encode_tree number_text depth' default) xs with
          | inl e => inl e
          | inr js => inr (JArray js)
          end
      | TDict items =>
          match traverse (fun kv =>
                   match json_key number_text (fst kv) with
                   | inl e => inl e
                   | inr k =>
                       match json_encode_tree number_text depth' default
                               (snd kv) with
                       | inl e => inl e
                       | inr j => inr (k, j)
                       end
                   end) items with
          | inl e => inl e
          | inr ms => inr (JObject ms)
          end
      end
  end.

(** Every key of every mapping in the bundle is one the encoder
    accepts. *)
Fixpoint keys_acceptable (t : pytree) : bool :=
  match t with
  | TValue _ => true
  | TList xs | TTuple xs => forallb keys_acceptable xs
  | TDict items =>
      forallb (fun kv => key_acceptable (fst kv) && keys_acceptable (snd kv))
        items
  end.

(** ** Observations on the recorded calls and on whole methods *)

(** The warnings logged and the artifacts uploaded among recorded
    events. *)
Definition warning_calls (evs : list event) : list exn :=
  flat_map (fun e => match e with EvWarning w => [w] | _ => [] end) evs.

Definition artifact_calls (evs : list event) : list json :=
  flat_map (fun e =>
      match e with
      | EvLogArtifact _ _ _ _ content _ => [content]
      | _ => []
      end) evs.

(** Everything of a state but its heap: the SDK, the recorded calls and
    the logger's attributes. *)
Definition outside_heap (s : state) : state := set_heap [] s.

(** [m] leaves the observation [f] of the state as it was, whatever its
    outcome. *)
Definition keeps {A B} (f : state -> B) (m : M A) : Prop :=
  forall s, f (fst (m s)) = f s.

(** [m] ends in an exception from every state. *)
Definition raises {A} (m : M A) : Prop :=
  forall s, exists e, snd (m s) = inl e.

(** A logger constructed with the keyword arguments [kwargs] in a process
    that holds the objects [h], has a current SDK installed and no active
    run. *)
Definition constructed (kwargs : dict) (h : list pyval) : state :=
  fst (__init__ kwargs
         (initial_state h (Some (plain_release [0; 16; 0])) None)).

(** A bundle whose second task is a number instead of a mapping. *)
Definition malformed_tasks : dict :=
  [("t", PDict [("acc", PInt 1)]); ("u", PInt 5)].

(** * Properties *)

(** ** Mappings *)

Lemma dget_dset_eq k v d : dget k (dset k v d) = Some v.
Proof.
  induction d as [|[k' v'] d IH]; simpl.
  - by rewrite String.eqb_refl.
  - destruct (String.eqb k k') eqn:E; simpl; rewrite ?String.eqb_refl, ?E; auto.
Qed.

Lemma dget_dset_ne k k' v d : k <> k' -> dget k' (dset k v d) = dget k' d.
Proof.
  intros Hne. induction d as [|[k0 v0] d IH]; simpl.
  - destruct (String.eqb k' k) eqn:E; [|done].
    apply String.eqb_eq in E. congruence.
  - destruct (String.eqb k k0) eqn:E; simpl.
    + apply String.eqb_eq in E. subst k0.
      destruct (String.eqb k' k) eqn:E'; [|done].
      apply String.eqb_eq in E'. congruence.
    + by rewrite IH.
Qed.


Lemma dget_ddel_ne k k' d : k <> k' -> dget k' (ddel k d) = dget k' d.
Proof.
  intros Hne. induction d as [|[k0 v0] d IH]; simpl; [done|].
  destruct (String.eqb k k0) eqn:E; simpl.
  - apply String.eqb_eq in E. subst k0.
    destruct (String.eqb k' k) eqn:E'; [|done].
    apply String.eqb_eq in E'. congruence.
  - by rewrite IH.
Qed.

Lemma elem_of_map {A B} (f : A -> B) (l : list A) y :
  y ∈ map f l <-> exists x, y = f x /\ x ∈ l.
Proof. apply (list_elem_of_fmap f l y). Qed.

Lemma dkeys_app d1 d2 : dkeys (d1 ++ d2) = dkeys d1 ++ dkeys d2.
Proof. apply map_app. Qed.

Lemma dget_None_keys k d : dget k d = None <-> k ∉ dkeys d.
Proof.
  induction d as [|[k' v'] d IH]; simpl.
  - split; [intros _; apply not_elem_of_nil|done].
  - rewrite not_elem_of_cons. destruct (String.eqb k k') eqn:E.
    + apply String.eqb_eq in E. subst. split; [done|]. intros [? _]. done.
    + apply String.eqb_neq in E. rewrite IH. tauto.
Qed.



Lemma dset_fresh k v d : dget k d = None -> dset k v d = d ++ [(k, v)].
Proof.
  induction d as [|[k' v'] d IH]; simpl; [done|].
  destruct (String.eqb k k'); [done|]. intros H. by rewrite IH.
Qed.

Lemma ddel_absent k d : dget k d = None -> ddel k d = d.
Proof.
  induction d as [|[k' v'] d IH]; simpl; [done|].
  destruct (String.eqb k k'); [done|]. intros H. by rewrite IH.
Qed.

Lemma ddel_app k d1 d2 : ddel k (d1 ++ d2) = ddel k d1 ++ ddel k d2.
Proof.
  induction d1 as [|[k' v'] d1 IH]; simpl; [done|].
  destruct (String.eqb k k'); simpl; by rewrite IH.
Qed.

Lemma dget_app k d1 d2 :
  dget k (d1 ++ d2) = match dget k d1 with Some v => Some v | None => dget k d2 end.
Proof.
  induction d1 as [|[k' v'] d1 IH]; simpl; [done|].
  by destruct (String.eqb k k').
Qed.

(** ** The state and the heap *)

Lemma set_heap_same s : set_heap (heap s) s = s.
Proof. by destruct s. Qed.

Lemma insert_at_end (h : list pyval) o a rest :
  <[length h := o]> (h ++ a :: rest) = h ++ o :: rest.
Proof. induction h as [|x h IH]; simpl; [done|]. by rewrite IH. Qed.

Lemma lookup_at_end (h : list pyval) a rest :
  (h ++ a :: rest) !! length h = Some a.
Proof. induction h as [|x h IH]; simpl; auto. Qed.

(** ** The loops write one object *)

Lemma cell_run_metric l task_name metric_name metric_value :
  cell_run l
    (setitem l (metric_key task_name metric_name) metric_value ;;;
     pop_in l task_name metric_name ;;; ret tt)
    (fun d => flatten_metric task_name d (metric_name, metric_value)).
Proof.
  intros s d Hl. pose proof (lookup_lt_Some _ _ _ Hl) as Hlt.
  unfold flatten_metric, pop_in_dict, setitem, pop_in, bind, load, store,
    modify, raise, ret; simpl.
  rewrite Hl; simpl. rewrite list_lookup_insert_eq by done.
  set (d1 := dset _ _ d).
  destruct (dget task_name d1) as [[| | | | | | |t| | | |]|]; simpl;
    try (eexists; reflexivity).
  destruct (dget metric_name t); simpl.
  - by rewrite list_insert_insert_eq.
  - eexists; reflexivity.
Qed.

Lemma cell_run_for_each {A} l (body : A -> M unit) f xs :
  (forall x, cell_run l (body x) (fun d => f d x)) ->
  cell_run l (for_each xs body) (fold_result f xs).
Proof.
  intros Hbody. induction xs as [|x xs IH]; intros s d Hl; simpl.
  - unfold ret. by rewrite (list_insert_id _ _ _ Hl), set_heap_same.
  - pose proof (lookup_lt_Some _ _ _ Hl) as Hlt.
    specialize (Hbody x s d Hl). simpl in Hbody. unfold bind.
    destruct (f d x) as [e|d'].
    + destruct Hbody as [o ->]. by exists o.
    + rewrite Hbody.
      assert (Hl' : heap (set_heap (<[l:=PDict d']> (heap s)) s) !! l
                    = Some (PDict d'))
        by (simpl; by apply list_lookup_insert_eq).
      specialize (IH _ _ Hl'). simpl in IH.
      destruct (fold_result f xs d') as [e|d''].
      * destruct IH as [o ->]. exists o. simpl.
        by rewrite list_insert_insert_eq.
      * rewrite IH. simpl. by rewrite list_insert_insert_eq.
Qed.

Lemma cell_run_task l (task : string * pyval) :
  cell_run l
    (let* metric_items := py_items (snd task) in
     for_each metric_items (fun metric =>
       setitem l (metric_key (fst task) (fst metric)) (snd metric) ;;;
       pop_in l (fst task) (fst metric) ;;; ret tt))
    (fun d => flatten_task d task).
Proof.
  intros s d Hl. unfold flatten_task.
  destruct (snd task) as [| | | | | | |ms| | | |];
    try (exists (PDict d); unfold bind; simpl; unfold raise;
         by rewrite (list_insert_id _ _ _ Hl), set_heap_same).
  unfold bind; simpl.
  apply (cell_run_for_each l _ (flatten_metric (fst task)) ms); [|done].
  intros [m v]. apply cell_run_metric.
Qed.

Lemma cell_run_pop l task :
  cell_run l (pop l task ;;; ret tt) (fun d => pop_dict d task).
Proof.
  intros s d Hl. unfold pop_dict, pop, bind, load, store, modify, raise, ret.
  rewrite Hl; simpl. destruct (dget task d); simpl; [done|].
  exists (PDict d). by rewrite (list_insert_id _ _ _ Hl), set_heap_same.
Qed.

(** ** [_sanitize_results_dict] as a function of the stored bundle *)

Lemma sanitize_run s l0 b :
  self_results s = Some l0 ->
  heap s !! l0 = Some (PDict b) ->
  exists X,
    _sanitize_results_dict s =
      (set_heap (heap s ++ [X; stored_tasks b]) s,
       match sanitize_outcome (stored_tasks b) (self_task_names s) with
       | inl e => inl e
       | inr _ => inr (length (heap s))
       end)
    /\ forall flat,
         sanitize_outcome (stored_tasks b) (self_task_names s) = inr flat ->
         X = PDict flat.
Proof.
  intros Hres Hl0. unfold _sanitize_results_dict.
  unfold bind at 1. unfold getattr at 1. rewrite Hres.
  unfold bind at 1. unfold load at 1. rewrite Hl0.
  unfold bind at 1. simpl py_get. unfold ret at 1.
  fold (stored_tasks b). set (tasks := stored_tasks b).
  unfold bind at 1. unfold deepcopy at 1, alloc at 1.
  unfold bind at 1. unfold load at 1. simpl heap.
  rewrite lookup_at_end.
  unfold bind at 1. unfold deepcopy at 1, alloc at 1. simpl heap.
  unfold bind at 1. unfold load at 1. simpl heap.
  rewrite lookup_at_end. cbv beta iota.
  set (s2 := set_heap ((heap s ++ [tasks]) ++ [tasks])
               (set_heap (heap s ++ [tasks]) s)).
  assert (Hs2 : s2 = set_heap (heap s ++ [tasks; tasks]) s)
    by (subst s2; simpl; by rewrite <- app_assoc).
  unfold sanitize_outcome.
  destruct tasks as [| | | | | | |ts| | | |] eqn:Etasks;
    try (eexists; split; [rewrite Hs2; reflexivity|discriminate]).
  unfold bind at 1. simpl py_items. unfold ret at 1. cbv beta iota.
  assert (Hl : heap s2 !! length (heap s) = Some (PDict ts))
    by (rewrite Hs2; simpl; apply lookup_at_end).
  pose proof (cell_run_for_each (length (heap s)) _ flatten_task ts
                (fun task => cell_run_task (length (heap s)) task) s2 ts Hl)
    as Hloop.
  unfold bind at 1.
  destruct (fold_result flatten_task ts ts) as [e|d1].
  { destruct Hloop as [o Hloop]. exists o. split; [|discriminate].
    rewrite Hloop, Hs2. simpl. by rewrite insert_at_end. }
  rewrite Hloop. cbv beta iota.
  unfold bind at 1. unfold getattr at 1. simpl self_task_names.
  destruct (self_task_names s) as [ns|].
  2:{ exists (PDict d1). split; [|discriminate].
      rewrite Hs2. simpl. by rewrite insert_at_end. }
  set (s3 := set_heap _ s2).
  assert (Hs3 : s3 = set_heap (heap s ++ [PDict d1; PDict ts]) s)
    by (subst s3; rewrite Hs2; simpl; by rewrite insert_at_end).
  assert (Hl3 : heap s3 !! length (heap s) = Some (PDict d1))
    by (rewrite Hs3; simpl; apply lookup_at_end).
  pose proof (cell_run_for_each (length (heap s)) _ pop_dict ns
                (fun task => cell_run_pop (length (heap s)) task) s3 d1 Hl3)
    as Hpop.
  unfold bind at 1.
  destruct (fold_result pop_dict ns d1) as [e|d2].
  - destruct Hpop as [o Hpop]. exists o. split; [|discriminate].
    rewrite Hpop, Hs3. simpl. by rewrite insert_at_end.
  - exists (PDict d2). split; [|by intros flat [= ->]].
    rewrite Hpop, Hs3. simpl. unfold ret. by rewrite insert_at_end.
Qed.

(** ** Keys built with a slash *)

Lemma has_slash_app a b : has_slash (a +:+ b) = has_slash a || has_slash b.
Proof.
  induction a as [|c a IH]; simpl; [done|]. rewrite IH. by rewrite orb_assoc.
Qed.

Lemma metric_key_has_slash t m : has_slash (metric_key t m) = true.
Proof.
  unfold metric_key. rewrite has_slash_app. simpl. by rewrite orb_true_r.
Qed.

Lemma metric_key_inj t t' m m' :
  has_slash t = false -> has_slash t' = false ->
  metric_key t m = metric_key t' m' -> t = t' /\ m = m'.
Proof.
  unfold metric_key. revert t'.
  induction t as [|c t IH]; intros [|c' t']; simpl; intros Ht Ht' Heq.
  - injection Heq as Hm. by subst.
  - injection Heq as Hc _. subst c'. by rewrite Ascii.eqb_refl in Ht'.
  - injection Heq as Hc _. subst c. by rewrite Ascii.eqb_refl in Ht.
  - injection Heq as Hc Heq. subst c'.
    apply orb_false_iff in Ht as [_ Ht]. apply orb_false_iff in Ht' as [_ Ht'].
    destruct (IH t' Ht Ht' Heq) as [Ha Hb]. by subst.
Qed.

Lemma metric_key_inj_metric t m m' :
  metric_key t m = metric_key t m' -> m = m'.
Proof.
  unfold metric_key. induction t as [|c t IH]; simpl; intros Heq.
  - by injection Heq.
  - injection Heq as Heq. auto.
Qed.

(** ** The flattening loops on well-formed task mappings *)

Lemma dkeys_emptied ts : dkeys (emptied ts) = dkeys ts.
Proof. unfold dkeys, emptied. by rewrite map_map. Qed.

Lemma dkeys_task_entries t ms :
  dkeys (task_entries t ms) = map (metric_key t) (dkeys ms).
Proof. unfold dkeys, task_entries. by rewrite !map_map. Qed.

Lemma dget_middle k v0 d1 d2 :
  k ∉ dkeys d1 -> dget k (d1 ++ (k, v0) :: d2) = Some v0.
Proof.
  intros H. apply dget_None_keys in H. rewrite dget_app, H. simpl.
  by rewrite String.eqb_refl.
Qed.

Lemma dset_middle k v v0 d1 d2 :
  k ∉ dkeys d1 -> dset k v (d1 ++ (k, v0) :: d2) = d1 ++ (k, v) :: d2.
Proof.
  induction d1 as [|[k' v'] d1 IH]; simpl; intros H.
  - by rewrite String.eqb_refl.
  - apply not_elem_of_cons in H as [Hne H].
    destruct (String.eqb k k') eqn:E.
    + by apply String.eqb_eq in E.
    + by rewrite IH.
Qed.

Lemma flatten_metrics_run t A B ms :
  t ∉ dkeys A ->
  NoDup (dkeys ms) ->
  NoDup (dkeys (task_entries t ms)) ->
  (forall k, k ∈ dkeys (task_entries t ms) ->
     (k ∉ dkeys A) /\ k <> t /\ (k ∉ dkeys B)) ->
  fold_result (flatten_metric t) ms (A ++ (t, PDict ms) :: B)
  = inr (A ++ (t, PDict []) :: B ++ task_entries t ms).
Proof.
  revert B. induction ms as [|[m v] ms IH]; intros B HtA Hnd Hnd' Hfresh.
  - simpl. by rewrite app_nil_r.
  - simpl in Hnd, Hnd'.
    apply NoDup_cons in Hnd as [Hm Hnd]. apply NoDup_cons in Hnd' as [Hk Hnd'].
    assert (Hkey : dget (metric_key t m) (A ++ (t, PDict ((m, v) :: ms)) :: B)
                   = None).
    { apply dget_None_keys. rewrite dkeys_app. simpl.
      destruct (Hfresh (metric_key t m)) as (H1 & H2 & H3);
        [simpl; apply list_elem_of_here|].
      rewrite elem_of_app, elem_of_cons. tauto. }
    cbn [fold_result]. unfold flatten_metric at 1. cbn [fst snd].
    rewrite (dset_fresh _ _ _ Hkey), <- app_assoc. cbn [app].
    unfold pop_in_dict. rewrite (dget_middle _ _ _ _ HtA).
    cbn [dget ddel]. rewrite String.eqb_refl.
    rewrite (ddel_absent m ms) by (by apply dget_None_keys).
    rewrite (dset_middle _ _ _ _ _ HtA).
    rewrite IH; [|done|done|done|].
    + by rewrite <- app_assoc.
    + intros k Hin. destruct (Hfresh k) as (H1 & H2 & H3);
        [simpl; by apply list_elem_of_further|].
      split_and!; [done|done|]. rewrite dkeys_app, elem_of_app. simpl.
      rewrite elem_of_cons. intros [?|[->|?]]; [done|done|].
      by apply elem_of_nil in H.
Qed.

Lemma flat_entries_cons t v ts :
  flat_entries ((t, v) :: ts) =
  match v with PDict ms => task_entries t ms | _ => [] end ++ flat_entries ts.
Proof. unfold flat_entries. simpl. by destruct v. Qed.

Lemma flatten_tasks_run A C ts :
  NoDup (dkeys A ++ dkeys ts) ->
  Forall task_ok ts ->
  NoDup (dkeys (flat_entries ts)) ->
  (forall k, k ∈ dkeys (flat_entries ts) ->
     (k ∉ dkeys A) /\ (k ∉ dkeys ts) /\ (k ∉ dkeys C)) ->
  fold_result flatten_task ts (A ++ ts ++ C)
  = inr (A ++ emptied ts ++ C ++ flat_entries ts).
Proof.
  revert A C. induction ts as [|[t v] ts IH]; intros A C Hnd Hok Hnd' Hfresh.
  - simpl. by rewrite app_nil_r.
  - apply Forall_cons in Hok as [(ms & Hv & Hms) Hok]. simpl in Hv. subst v.
    rewrite flat_entries_cons in Hnd', Hfresh |- *.
    rewrite dkeys_app in Hnd', Hfresh.
    apply NoDup_app in Hnd' as (Hnd1 & Hdisj & Hnd2).
    simpl in Hnd. apply NoDup_app in Hnd as (HndA & HdisjA & Hndts).
    apply NoDup_cons in Hndts as [Ht Hndts].
    assert (HtA : t ∉ dkeys A).
    { intros Hin. apply (HdisjA t Hin). apply list_elem_of_here. }
    cbn [fold_result]. unfold flatten_task at 1. cbn [fst snd app].
    rewrite (flatten_metrics_run t A (ts ++ C) ms HtA Hms Hnd1).
    2:{ intros k Hin. destruct (Hfresh k) as (H1 & H2 & H3);
          [rewrite elem_of_app; by left|].
        simpl in H2. rewrite not_elem_of_cons in H2. destruct H2 as [H2 H2'].
        split_and!; [done|done|]. rewrite dkeys_app, elem_of_app. tauto. }
    replace (A ++ (t, PDict []) :: (ts ++ C) ++ task_entries t ms)
      with ((A ++ [(t, PDict [])]) ++ ts ++ (C ++ task_entries t ms))
      by (rewrite <- !app_assoc; done).
    rewrite IH.
    + simpl. by rewrite <- !app_assoc.
    + rewrite dkeys_app. simpl. rewrite <- app_assoc. simpl.
      apply NoDup_app. split_and!; [done| |by apply NoDup_cons].
      intros k HkA Hk. apply elem_of_cons in Hk as [->|Hk]; [done|].
      apply (HdisjA k HkA). by apply list_elem_of_further.
    + done.
    + done.
    + intros k Hin. destruct (Hfresh k) as (H1 & H2 & H3);
        [rewrite elem_of_app; by right|].
      simpl in H2. rewrite not_elem_of_cons in H2. destruct H2 as [H2 H2'].
      split_and!.
      * rewrite dkeys_app, elem_of_app. simpl. rewrite elem_of_cons.
        intros [?|[?|?]]; [done|done|]. by apply elem_of_nil in H.
      * done.
      * rewrite dkeys_app, elem_of_app. intros [?|?]; [done|].
        by apply (Hdisj k).
Qed.

Lemma pop_tasks_run ts F :
  NoDup (dkeys ts) ->
  (forall k, k ∈ dkeys F -> k ∉ dkeys ts) ->
  fold_result pop_dict (dkeys ts) (emptied ts ++ F) = inr F.
Proof.
  induction ts as [|[t v] ts IH]; intros Hnd Hfresh; [done|].
  simpl in Hnd. apply NoDup_cons in Hnd as [Ht Hnd].
  simpl. unfold pop_dict at 1. simpl. rewrite String.eqb_refl.
  rewrite ddel_absent.
  - apply IH; [done|]. intros k Hk. specialize (Hfresh k Hk). simpl in Hfresh.
    rewrite not_elem_of_cons in Hfresh. tauto.
  - apply dget_None_keys. rewrite dkeys_app, dkeys_emptied, elem_of_app.
    intros [?|HF]; [done|]. apply (Hfresh t HF). apply list_elem_of_here.
Qed.

(** Distinct task and metric names whose keys neither repeat nor hit a
    task name: the loops end with exactly the flattened entries. *)
Lemma sanitize_outcome_flat ts :
  NoDup (dkeys ts) ->
  Forall task_ok ts ->
  NoDup (dkeys (flat_entries ts)) ->
  (forall k, k ∈ dkeys (flat_entries ts) -> k ∉ dkeys ts) ->
  sanitize_outcome (PDict ts) (Some (dkeys ts)) = inr (flat_entries ts).
Proof.
  intros Hnd Hok Hnd' Hfresh. unfold sanitize_outcome.
  pose proof (flatten_tasks_run [] [] ts) as H. simpl in H.
  rewrite app_nil_r in H. rewrite H; [|done|done|done|].
  - by apply pop_tasks_run.
  - intros k Hk. split_and!; [apply not_elem_of_nil|auto|apply not_elem_of_nil].
Qed.

Lemma elem_of_flat_entries k v ts :
  (k, v) ∈ flat_entries ts <->
  exists t ms m, (t, PDict ms) ∈ ts /\ (m, v) ∈ ms /\ k = metric_key t m.
Proof.
  induction ts as [|[t x] ts IH].
  - split; [intros H; by apply elem_of_nil in H|].
    intros (t & ms & m & H & _). by apply elem_of_nil in H.
  - rewrite flat_entries_cons, elem_of_app, IH. split.
    + intros [H|(t' & ms & m & H1 & H2 & H3)].
      * destruct x as [| | | | | | |ms| | | |];
          try (by apply elem_of_nil in H).
        apply elem_of_map in H as ([m v'] & Heq & Hin). simpl in Heq.
        injection Heq as -> ->. exists t, ms, m.
        split_and!; [apply list_elem_of_here|done|done].
      * exists t', ms, m. split_and!; [by apply list_elem_of_further|done|done].
    + intros (t' & ms & m & H1 & H2 & H3).
      apply elem_of_cons in H1 as [Heq|H1].
      * injection Heq as Ha Hb. subst. left. apply elem_of_map.
        by exists (m, v).
      * right. by exists t', ms, m.
Qed.

Lemma flat_keys_have_slash k ts :
  k ∈ dkeys (flat_entries ts) -> has_slash k = true.
Proof.
  intros H. apply elem_of_map in H as ([k' v] & -> & H). simpl.
  apply elem_of_flat_entries in H as (t & ms & m & _ & _ & ->).
  apply metric_key_has_slash.
Qed.

Lemma flat_keys_task k ts :
  k ∈ dkeys (flat_entries ts) ->
  exists t m, t ∈ dkeys ts /\ k = metric_key t m.
Proof.
  intros H. apply elem_of_map in H as ([k' v] & -> & H). simpl.
  apply elem_of_flat_entries in H as (t & ms & m & Ht & _ & ->).
  exists t, m. split; [|done]. apply elem_of_map. by exists (t, PDict ms).
Qed.

Lemma NoDup_metric_keys t ms :
  NoDup (dkeys ms) -> NoDup (dkeys (task_entries t ms)).
Proof.
  rewrite dkeys_task_entries. generalize (dkeys ms) as ks.
  induction ks as [|k ks IH]; simpl; intros Hnd; [apply NoDup_nil_2|].
  apply NoDup_cons in Hnd as [Hk Hnd]. apply NoDup_cons. split; [|auto].
  intros Hin. apply elem_of_map in Hin as (k' & Heq & Hin).
  apply metric_key_inj_metric in Heq. by subst.
Qed.

Lemma NoDup_flat_keys ts :
  (forall t, t ∈ dkeys ts -> has_slash t = false) ->
  NoDup (dkeys ts) -> Forall task_ok ts ->
  NoDup (dkeys (flat_entries ts)).
Proof.
  induction ts as [|[t x] ts IH]; intros Hslash Hnd Hok; [apply NoDup_nil_2|].
  simpl in Hnd. apply NoDup_cons in Hnd as [Ht Hnd].
  apply Forall_cons in Hok as [(ms & Hx & Hms) Hok]. simpl in Hx. subst x.
  rewrite flat_entries_cons, dkeys_app. apply NoDup_app. split_and!.
  - by apply NoDup_metric_keys.
  - intros k Hk Hk'. rewrite dkeys_task_entries in Hk.
    apply elem_of_map in Hk as (m & -> & _).
    apply flat_keys_task in Hk' as (t' & m' & Ht' & Heq).
    apply metric_key_inj in Heq as [-> _]; [done| |].
    + apply Hslash. apply list_elem_of_here.
    + apply Hslash. by apply list_elem_of_further.
  - apply IH; [|done|done]. intros t' Ht'. apply Hslash.
    by apply list_elem_of_further.
Qed.

(** ** [post_init] *)

Lemma post_init_run s lc b :
  heap s !! lc = Some (PDict b) ->
  post_init lc s =
    let s1 := set_self_results (Some (length (heap s)))
                (set_heap (heap s ++ [PDict b]) s) in
    match stored_tasks b with
    | PDict ts => (set_self_task_names (Some (dkeys ts)) s1, inr tt)
    | _ => (s1, inl (AttributeError "keys"))
    end.
Proof.
  intros Hl. unfold post_init, bind, load, deepcopy, alloc, modify.
  rewrite Hl. cbn [heap set_heap set_self_results].
  rewrite (lookup_app_l_Some _ _ _ _ Hl). cbn [py_get].
  unfold ret. fold (stored_tasks b).
  by destruct (stored_tasks b).
Qed.

(** ** Attaching a bundle and flattening it *)

Lemma attach_and_flatten_run s lc b :
  heap s !! lc = Some (PDict b) ->
  forall ts, stored_tasks b = PDict ts ->
  exists X,
    (post_init lc ;;; _sanitize_results_dict) s =
      (set_self_task_names (Some (dkeys ts))
         (set_self_results (Some (length (heap s)))
            (set_heap (heap s ++ [PDict b; X; PDict ts]) s)),
       match sanitize_outcome (PDict ts) (Some (dkeys ts)) with
       | inl e => inl e
       | inr _ => inr (S (length (heap s)))
       end)
    /\ forall flat,
         sanitize_outcome (PDict ts) (Some (dkeys ts)) = inr flat ->
         X = PDict flat.
Proof.
  intros Hl ts Hts. unfold bind at 1. rewrite (post_init_run s lc b Hl), Hts.
  cbv zeta. cbv beta iota.
  set (s1 := set_self_task_names _ _).
  destruct (sanitize_run s1 (length (heap s)) b) as (X & Hrun & HX).
  - done.
  - subst s1. simpl. apply lookup_at_end.
  - exists X. rewrite Hrun, Hts. subst s1. simpl. split.
    + rewrite <- app_assoc. simpl. rewrite length_app. simpl.
      replace (length (heap s) + 1) with (S (length (heap s))) by lia. done.
    + intros flat. rewrite Hts in HX. apply HX.
Qed.

(** ** Flattening is a bijection when task names carry no slash *)





(** ** [log_eval_result] as a function of the logger's attributes *)

(** Tactics that run one statement on a state given by its fields. *)
Ltac state_cbn :=
  unfold set_heap, set_wandb_run, set_runs_started, set_events,
    set_frame_wandb, set_self_wandb_args, set_self_step, set_self_step_key,
    set_self_run, set_self_printer, set_self_results, set_self_task_names,
    set_self_wandb_results;
  cbn [heap wandb_installed wandb_run runs_started recursion_limit events
       frame_wandb self_wandb_args self_step self_step_key self_run
       self_printer self_results self_task_names self_wandb_results].

Ltac state_cbn_in H :=
  unfold set_heap, set_wandb_run, set_runs_started, set_events,
    set_frame_wandb, set_self_wandb_args, set_self_step, set_self_step_key,
    set_self_run, set_self_printer, set_self_results, set_self_task_names,
    set_self_wandb_results in H;
  cbn [heap wandb_installed wandb_run runs_started recursion_limit events
       frame_wandb self_wandb_args self_step self_step_key self_run
       self_printer self_results self_task_names self_wandb_results] in H.

Ltac run_getattr := unfold bind at 1; unfold getattr at 1; state_cbn.
Ltac run_load H := unfold bind at 1; unfold load at 1; state_cbn; rewrite H.
Ltac run_modify := unfold bind at 1; unfold modify at 1; state_cbn.
Ltac run_emit := unfold bind at 1; unfold emit at 1, modify at 1; state_cbn.

Section LogEvalResult.

Variable py_str : pyval -> string.

Lemma set_events_same s : set_events (events s) s = s.
Proof. by destruct s. Qed.

Lemma define_metrics_run s r sk keys :
  self_run s = Some r -> self_step_key s = Some sk ->
  for_each keys (fun key =>
    let* run := getattr "run" self_run in
    let* step_key := getattr "step_key" self_step_key in
    emit (EvDefineMetric run (PStr key) (Some step_key) false true)) s
  = (set_events (events s ++ metric_events r sk keys) s, inr tt).
Proof.
  revert s. induction keys as [|key keys IH]; intros s Hr Hk.
  - simpl. unfold ret. by rewrite app_nil_r, set_events_same.
  - cbn [for_each]. unfold bind at 1. unfold bind at 1.
    unfold getattr at 1. rewrite Hr. unfold bind at 1.
    unfold getattr at 1. rewrite Hk. unfold emit at 1, modify at 1.
    rewrite IH by done. cbn [events set_events metric_events map].
    by rewrite <- app_assoc.
Qed.

Lemma log_results_as_artifact_run s l0 v :
  self_results s = Some l0 -> heap s !! l0 = Some v ->
  _log_results_as_artifact py_str s
  = (s, inl (artifact_error py_str (recursion_limit s) v)).
Proof.
  intros Hr Hl. unfold _log_results_as_artifact, bind, getattr, load,
    json_dumps, artifact_error.
  rewrite Hr, Hl.
  by destruct (json_encode _ _ _).
Qed.

Lemma log_eval_result_run s r l0 b st k :
  self_run s = Some r ->
  self_results s = Some l0 ->
  heap s !! l0 = Some (PDict b) ->
  self_step s = Some st ->
  self_step_key s = Some (PStr k) ->
  let upd := EvConfigUpdate r [("bigcode_eval", stored_config b)] true in
  exists X,
    log_eval_result py_str s =
    match sanitize_outcome (stored_tasks b) (self_task_names s) with
    | inl e =>
        (set_events (events s ++ [upd])
           (set_heap (heap s ++ [X; stored_tasks b]) s), inl e)
    | inr flat =>
        (set_self_wandb_results (Some (length (heap s)))
           (set_events
              (events s ++ upd :: metric_events r (PStr k) (dkeys flat)
                 ++ [EvLog r (PDict (dset k st flat))])
              (set_heap (heap s ++ [PDict (dset k st flat); stored_tasks b])
                 s)),
         inl (artifact_error py_str (recursion_limit s) (PDict b)))
    end.
Proof.
  intros Hr Hres Hl Hst Hk upd. subst upd.
  destruct s as [h wi wr rs rl ev fw a_args a_step a_key a_run a_pr a_res
                   a_tn a_wr].
  state_cbn_in Hr; state_cbn_in Hres; state_cbn_in Hl; state_cbn_in Hst;
    state_cbn_in Hk. subst. state_cbn.
  destruct (sanitize_run
              (mkState h wi wr rs rl
                 (ev ++ [EvConfigUpdate r [("bigcode_eval", stored_config b)]
                           true]) fw a_args (Some st)
                 (Some (PStr k)) (Some r) a_pr (Some l0) a_tn a_wr) l0 b
              eq_refl Hl) as (X & Hrun & HX).
  state_cbn_in Hrun. state_cbn_in HX.
  exists X. unfold log_eval_result.
  run_getattr. run_getattr. run_load Hl.
  unfold bind at 1. cbn [py_get]. unfold ret at 1. fold (stored_config b).
  run_emit.
  unfold bind at 1. rewrite Hrun.
  destruct (sanitize_outcome (stored_tasks b) a_tn) as [e|flat]; [done|].
  specialize (HX flat eq_refl). subst X.
  run_modify. run_getattr. run_load (lookup_at_end h (PDict flat) [stored_tasks b]).
  unfold bind at 1. cbn [py_iter]. unfold ret at 1.
  unfold bind at 1.
  rewrite (define_metrics_run _ r (PStr k)) by reflexivity. state_cbn.
  run_getattr. run_getattr. run_getattr.
  unfold bind at 1. cbn [as_key]. unfold ret at 1.
  unfold bind at 1. unfold setitem at 1.
  run_load (lookup_at_end h (PDict flat) [stored_tasks b]).
  unfold store at 1, modify at 1. state_cbn. rewrite insert_at_end.
  run_getattr. run_getattr.
  run_load (lookup_at_end h (PDict (dset k st flat)) [stored_tasks b]).
  run_emit.
  rewrite (log_results_as_artifact_run _ l0 (PDict b)).
  - state_cbn. by rewrite <- !app_assoc.
  - reflexivity.
  - state_cbn. by apply lookup_app_l_Some.
Qed.

End LogEvalResult.

(** ** The objects that exist before a call are not written *)

Lemma preserved_refl n s : n <= length (heap s) -> preserved n s s.
Proof. by split. Qed.

Lemma preserved_trans n s1 s2 s3 :
  preserved n s1 s2 -> preserved n s2 s3 -> preserved n s1 s3.
Proof.
  intros [H1 H2] [H3 H4]. split; [done|].
  intros l Hl. rewrite H4, H2; done.
Qed.

Lemma frame_ret {A} n P (a : A) (phi : A -> Prop) :
  phi a -> frame n P (ret a) (fun a s => phi a /\ P s).
Proof. intros Ha s Hn HP. split; [by apply preserved_refl|done]. Qed.

Lemma frame_raise {A} n P e (Q : A -> state -> Prop) : frame n P (raise e) Q.
Proof. intros s Hn HP. split; [by apply preserved_refl|done]. Qed.

Lemma frame_bind {A B} n P (m : M A) (k : A -> M B) Q R :
  frame n P m Q -> (forall a, frame n (Q a) (k a) R) -> frame n P (bind m k) R.
Proof.
  intros Hm Hk s Hn HP. unfold bind. specialize (Hm s Hn HP).
  destruct (m s) as [s' [e|a]]; simpl in *; [tauto|].
  destruct Hm as [Hp HQ]. specialize (Hk a s' (proj1 Hp) HQ).
  destruct (k a s') as [s'' r]; simpl in *.
  split; [|tauto]. eapply preserved_trans; [exact Hp|tauto].
Qed.

Lemma frame_conseq {A} n (P P' : state -> Prop) (m : M A)
    (Q Q' : A -> state -> Prop) :
  frame n P m Q -> (forall s, P' s -> P s) ->
  (forall a s, Q a s -> Q' a s) -> frame n P' m Q'.
Proof.
  intros Hm HP HQ s Hn HP'. specialize (Hm s Hn (HP s HP')).
  destruct (m s) as [s' [e|a]]; simpl in *; [tauto|]. split; [tauto|].
  apply HQ. tauto.
Qed.

(** Sequencing when the first statement keeps [P] and tells [phi] of its
    value. *)
Lemma frame_seq {A B} n P (m : M A) (k : A -> M B) (phi : A -> Prop) R :
  frame n P m (fun a s => phi a /\ P s) ->
  (forall a, phi a -> frame n P (k a) R) -> frame n P (bind m k) R.
Proof.
  intros Hm Hk. eapply frame_bind; [exact Hm|].
  intros a s Hn [Ha HP]. by apply Hk.
Qed.

Lemma frame_for_each {A} n P (xs : list A) body :
  (forall x, frame n P (body x) (fun _ s => True /\ P s)) ->
  frame n P (for_each xs body) (fun _ s => True /\ P s).
Proof.
  intros Hbody. induction xs as [|x xs IH]; simpl.
  - by apply frame_ret.
  - eapply frame_seq; [apply Hbody|]. intros _ _. apply IH.
Qed.

Lemma frame_getattr {A} n P name (field : state -> option A) :
  frame n P (getattr name field) (fun _ s => True /\ P s).
Proof.
  intros s Hn HP. unfold getattr.
  destruct (field s); (split; [by apply preserved_refl|done]).
Qed.

Lemma frame_getattr_known {A} n (P : state -> Prop) name
    (field : state -> option A) v :
  (forall s, P s -> field s = Some v) ->
  frame n P (getattr name field) (fun a s => a = v /\ P s).
Proof.
  intros Hv s Hn HP. unfold getattr. rewrite (Hv s HP). simpl.
  split; [by apply preserved_refl|done].
Qed.

Lemma frame_modify n (P Q : state -> Prop) f :
  (forall s, heap (f s) = heap s) -> (forall s, P s -> Q (f s)) ->
  frame n P (modify f) (fun _ s => True /\ Q s).
Proof.
  intros Hf HQ s Hn HP. unfold modify. simpl. split; [|auto].
  split; rewrite Hf; done.
Qed.

Lemma frame_emit n (P : state -> Prop) e :
  (forall s es, P s -> P (set_events es s)) ->
  frame n P (emit e) (fun _ s => True /\ P s).
Proof. intros HP. apply frame_modify; [done|]. intros s. apply HP. Qed.

Lemma frame_alloc n (P : state -> Prop) v :
  (forall s h, P s -> P (set_heap h s)) ->
  frame n P (alloc v) (fun l s => n <= l /\ P s).
Proof.
  intros Hst s Hn HP. unfold alloc, preserved. simpl. split; [|auto]. split.
  - rewrite length_app. lia.
  - intros l Hl. apply lookup_app_l. lia.
Qed.

Lemma frame_load n P l : frame n P (load l) (fun _ s => True /\ P s).
Proof.
  intros s Hn HP. unfold load.
  destruct (heap s !! l); (split; [by apply preserved_refl|done]).
Qed.

Lemma frame_store n (P : state -> Prop) l v :
  n <= l -> (forall s h, P s -> P (set_heap h s)) ->
  frame n P (store l v) (fun _ s => True /\ P s).
Proof.
  intros Hl Hst s Hn HP. unfold store, modify, preserved. simpl.
  split; [|auto]. split.
  - by rewrite length_insert.
  - intros l' Hl'. apply list_lookup_insert_ne. lia.
Qed.

Lemma frame_setitem n (P : state -> Prop) l k v :
  n <= l -> (forall s h, P s -> P (set_heap h s)) ->
  frame n P (setitem l k v) (fun _ s => True /\ P s).
Proof.
  intros Hl Hst. unfold setitem. eapply frame_seq; [apply frame_load|].
  intros o _. destruct o; try apply frame_raise. by apply frame_store.
Qed.

Lemma frame_pop n (P : state -> Prop) l k :
  n <= l -> (forall s h, P s -> P (set_heap h s)) ->
  frame n P (pop l k) (fun _ s => True /\ P s).
Proof.
  intros Hl Hst. unfold pop. eapply frame_seq; [apply frame_load|].
  intros o _. destruct o; try apply frame_raise.
  destruct (dget k d); [|apply frame_raise].
  eapply frame_seq; [by apply frame_store|]. intros _ _. by apply frame_ret.
Qed.

Lemma frame_pop_in n (P : state -> Prop) l k1 k2 :
  n <= l -> (forall s h, P s -> P (set_heap h s)) ->
  frame n P (pop_in l k1 k2) (fun _ s => True /\ P s).
Proof.
  intros Hl Hst. unfold pop_in. eapply frame_seq; [apply frame_load|].
  intros o _. destruct o; try apply frame_raise.
  destruct (dget k1 d) as [[]|]; try apply frame_raise.
  destruct (dget k2 _); [|apply frame_raise].
  eapply frame_seq; [by apply frame_store|]. intros _ _. by apply frame_ret.
Qed.

Lemma frame_py_get n P o k default :
  frame n P (py_get o k default) (fun _ s => True /\ P s).
Proof. destruct o; try apply frame_raise. by apply frame_ret. Qed.

Lemma frame_py_items n P o : frame n P (py_items o) (fun _ s => True /\ P s).
Proof. destruct o; try apply frame_raise. by apply frame_ret. Qed.

Lemma frame_py_keys n P o : frame n P (py_keys o) (fun _ s => True /\ P s).
Proof. destruct o; try apply frame_raise. by apply frame_ret. Qed.

Lemma frame_py_iter n P o : frame n P (py_iter o) (fun _ s => True /\ P s).
Proof. destruct o; try apply frame_raise. by apply frame_ret. Qed.

Lemma frame_as_key n P v : frame n P (as_key v) (fun _ s => True /\ P s).
Proof. destruct v; try apply frame_raise. by apply frame_ret. Qed.

Lemma frame_json_dumps n P o default :
  frame n P (json_dumps o default) (fun _ s => True /\ P s).
Proof.
  intros s Hn HP. unfold json_dumps. simpl.
  split; [by apply preserved_refl|]. by destruct (json_encode _ _ _).
Qed.

Lemma frame_load_global n P name :
  frame n P (load_global name) (fun _ s => True /\ P s).
Proof.
  unfold load_global. destruct (existsb _ _); [by apply frame_ret|].
  apply frame_raise.
Qed.

Lemma frame_post_init n results :
  frame n (fun _ => True) (post_init results) (fun _ _ => True).
Proof.
  unfold post_init.
  eapply frame_seq; [apply frame_load|]. intros bundle _.
  eapply frame_seq; [by apply frame_alloc|]. intros copied Hc.
  eapply frame_seq; [by apply frame_modify|]. intros _ _.
  eapply frame_seq; [apply frame_load|]. intros bundle' _.
  eapply frame_seq; [apply frame_py_get|]. intros tasks _.
  eapply frame_seq; [apply frame_py_keys|]. intros names _.
  eapply frame_conseq; [by apply (frame_modify n (fun _ => True) (fun _ => True))|done|done].
Qed.

Lemma frame_sanitize_results_dict n :
  frame n (fun _ => True) _sanitize_results_dict
    (fun l s => n <= l /\ True).
Proof.
  unfold _sanitize_results_dict.
  eapply frame_seq; [apply frame_getattr|]. intros stored _.
  eapply frame_seq; [apply frame_load|]. intros bundle _.
  eapply frame_seq; [apply frame_py_get|]. intros tasks _.
  eapply frame_seq; [by apply frame_alloc|]. intros _results Hres.
  eapply frame_seq; [apply frame_load|]. intros copy_of _.
  eapply frame_seq; [by apply frame_alloc|]. intros tmp_results _.
  eapply frame_seq; [apply frame_load|]. intros tmp _.
  eapply frame_seq; [apply frame_py_items|]. intros task_items _.
  eapply frame_seq.
  { apply frame_for_each. intros task.
    eapply frame_seq; [apply frame_py_items|]. intros metric_items _.
    apply frame_for_each. intros metric.
    eapply frame_seq; [by apply frame_setitem|]. intros _ _.
    eapply frame_seq; [by apply frame_pop_in|]. intros _ _.
    by apply frame_ret. }
  intros _ _.
  eapply frame_seq; [apply frame_getattr|]. intros task_names _.
  eapply frame_seq.
  { apply frame_for_each. intros task.
    eapply frame_seq; [by apply frame_pop|]. intros _ _. by apply frame_ret. }
  intros _ _. by apply frame_ret.
Qed.

Section Frame.

Variable py_str : pyval -> string.

Lemma frame_log_results_as_artifact n (P : state -> Prop) :
  (forall s es, P s -> P (set_events es s)) ->
  frame n P (_log_results_as_artifact py_str) (fun _ s => True /\ P s).
Proof.
  intros HP. unfold _log_results_as_artifact.
  eapply frame_seq; [apply frame_getattr|]. intros stored _.
  eapply frame_seq; [apply frame_load|]. intros bundle _.
  eapply frame_seq; [apply frame_json_dumps|]. intros dumped _.
  eapply frame_seq; [apply frame_load_global|]. intros _ _.
  eapply frame_seq; [apply frame_getattr|]. intros run _.
  eapply frame_seq; [apply frame_getattr|]. intros step_key _.
  eapply frame_seq; [apply frame_getattr|]. intros step _.
  by apply frame_emit.
Qed.

Lemma frame_log_eval_result n :
  frame n (fun _ => True) (log_eval_result py_str) (fun _ _ => True).
Proof.
  unfold log_eval_result.
  eapply frame_seq; [apply frame_getattr|]. intros run _.
  eapply frame_seq; [apply frame_getattr|]. intros stored _.
  eapply frame_seq; [apply frame_load|]. intros bundle _.
  eapply frame_seq; [apply frame_py_get|]. intros config _.
  eapply frame_seq; [by apply frame_emit|]. intros _ _.
  eapply frame_seq; [apply frame_sanitize_results_dict|]. intros flat Hflat.
  eapply frame_bind.
  { apply (frame_modify n (fun _ => True)
             (fun s => self_wandb_results s = Some flat)); done. }
  intros u.
  eapply frame_conseq with
    (P := fun s => self_wandb_results s = Some flat)
    (Q := fun _ s => True /\ self_wandb_results s = Some flat);
    [|by intros s [_ H]|done].
  eapply frame_seq; [by apply frame_getattr_known|]. intros ? ->.
  eapply frame_seq; [apply frame_load|]. intros mapping _.
  eapply frame_seq; [apply frame_py_iter|]. intros keys _.
  eapply frame_seq.
  { apply frame_for_each. intros key.
    eapply frame_seq; [apply frame_getattr|]. intros run' _.
    eapply frame_seq; [apply frame_getattr|]. intros step_key _.
    by apply frame_emit. }
  intros _ _.
  eapply frame_seq; [apply frame_getattr|]. intros step _.
  eapply frame_seq; [by apply frame_getattr_known|]. intros ? ->.
  eapply frame_seq; [apply frame_getattr|]. intros step_key _.
  eapply frame_seq; [apply frame_as_key|]. intros k _.
  eapply frame_seq; [by apply frame_setitem|]. intros _ _.
  eapply frame_seq; [apply frame_getattr|]. intros run' _.
  eapply frame_seq; [apply frame_getattr|]. intros wandb_results'' _.
  eapply frame_seq; [apply frame_load|]. intros mapping' _.
  eapply frame_seq; [by apply frame_emit|]. intros _ _.
  by apply frame_log_results_as_artifact.
Qed.

Lemma run_operation_preserved n op s :
  n <= length (heap s) ->
  preserved n s (fst (run_operation py_str op s)).
Proof.
  intros Hn. destruct op as [results| | |]; simpl.
  - by apply (frame_post_init n results s).
  - by apply (frame_log_eval_result n s).
  - assert (H : frame n (fun _ => True) (_sanitize_results_dict ;;; ret tt)
                  (fun _ s => True /\ True)).
    { eapply frame_seq; [apply frame_sanitize_results_dict|].
      intros _ _. by apply frame_ret. }
    by apply (H s).
  - by apply (frame_log_results_as_artifact n (fun _ => True)).
Qed.

Lemma run_operations_preserved n ops s :
  n <= length (heap s) -> preserved n s (run_operations py_str ops s).
Proof.
  revert s. induction ops as [|op ops IH]; intros s Hn; simpl.
  - by apply preserved_refl.
  - pose proof (run_operation_preserved n op s Hn) as Hp.
    eapply preserved_trans; [exact Hp|]. apply IH. apply Hp.
Qed.

End Frame.

(** ** The caller's bundle *)

Lemma post_init_stores_copy s lc v :
  heap s !! lc = Some v ->
  let s1 := fst (post_init lc s) in
  self_results s1 = Some (length (heap s)) /\
  heap s1 = heap s ++ [v].
Proof.
  intros Hl. unfold post_init, bind, load, deepcopy, alloc, modify.
  rewrite Hl. cbn [heap set_heap set_self_results].
  rewrite (lookup_app_l_Some _ _ _ _ Hl).
  destruct v; cbn; try done. by destruct (dget "results" d) as [[]|].
Qed.

Section CallerBundle.

Variable py_str : pyval -> string.

(** Claim C4.  The bundle passed to [post_init] is never written: the
    logger keeps a copy of it in a new object, and whatever operations
    follow, in any number and order and whether or not they raise, the
    caller's object still holds the same value. *)
Theorem caller_bundle_never_mutated s lc v ops :
  heap s !! lc = Some v ->
  (let s1 := fst (post_init lc s) in
   exists copy,
     self_results s1 = Some copy /\ copy <> lc /\
     heap s1 !! copy = Some v /\ heap s1 !! lc = Some v) /\
  heap (run_operations py_str (OpPostInit lc :: ops) s) !! lc = Some v.
Proof.
  intros Hl. pose proof (lookup_lt_Some _ _ _ Hl) as Hlt. split.
  - destruct (post_init_stores_copy s lc v Hl) as [Hres Hheap].
    exists (length (heap s)). cbv zeta. rewrite Hres, Hheap.
    split_and!; [done|lia|apply lookup_at_end|by apply lookup_app_l_Some].
  - destruct (run_operations_preserved py_str (S lc) (OpPostInit lc :: ops) s)
      as [_ H]; [lia|].
    rewrite H by lia. done.
Qed.

End CallerBundle.

Lemma caller_bundle_never_mutated_witness :
  let s := fst (__init__ [("step", PInt 3)]
                  (initial_state [PDict example_bundle]
                     (Some (plain_release [0; 16; 0])) None)) in
  heap s !! 0 = Some (PDict example_bundle) /\
  heap (run_operations name_str
          [OpPostInit 0; OpLogEvalResult; OpLogResultsAsArtifact;
           OpLogEvalResult] s) !! 0 = Some (PDict example_bundle).
Proof.
  split; [reflexivity|].
  apply (caller_bundle_never_mutated name_str _ 0 (PDict example_bundle)
           [OpLogEvalResult; OpLogResultsAsArtifact; OpLogEvalResult]).
  reflexivity.
Defined.

(** ** Repeating [log_eval_result] *)

Lemma flattened_run s l0 b :
  self_results s = Some l0 ->
  heap s !! l0 = Some (PDict b) ->
  flattened s =
    match sanitize_outcome (stored_tasks b) (self_task_names s) with
    | inl e => inl e
    | inr flat => inr (Some (PDict flat))
    end.
Proof.
  intros Hres Hl. unfold flattened.
  destruct (sanitize_run s l0 b Hres Hl) as (X & -> & HX).
  destruct (sanitize_outcome _ _) as [e|flat]; [done|].
  rewrite (HX flat eq_refl). simpl. by rewrite lookup_at_end.
Qed.

Section Repeat.

Variable py_str : pyval -> string.

(** Claim C7.  On a constructed logger with a stored bundle, a second
    [log_eval_result] right after a first ends the same way and makes the
    same calls on the run with the same arguments, the logged flattened
    mapping with its step value among them; and the flattening returns
    the same mapping before and after the first call. *)
Theorem log_eval_result_repeatable s r l0 b st k :
  self_run s = Some r ->
  self_results s = Some l0 ->
  heap s !! l0 = Some (PDict b) ->
  self_step s = Some st ->
  self_step_key s = Some (PStr k) ->
  let first := log_eval_result py_str s in
  let second := log_eval_result py_str (fst first) in
  snd second = snd first /\
  (exists calls,
     events (fst first) = events s ++ calls /\
     events (fst second) = events (fst first) ++ calls) /\
  flattened (fst first) = flattened s /\
  flattened (fst second) = flattened s.
Proof.
  intros Hr Hres Hl Hst Hk first second.
  destruct (log_eval_result_run py_str s r l0 b st k Hr Hres Hl Hst Hk)
    as (X & H1).
  cbv zeta in H1.
  assert (Hstep : forall s1,
            self_run s1 = Some r -> self_results s1 = Some l0 ->
            heap s1 !! l0 = Some (PDict b) -> self_step s1 = Some st ->
            self_step_key s1 = Some (PStr k) ->
            self_task_names s1 = self_task_names s ->
            recursion_limit s1 = recursion_limit s ->
            snd (log_eval_result py_str s1) = snd first /\
            (exists calls,
               events (fst first) = events s ++ calls /\
               events (fst (log_eval_result py_str s1)) = events s1 ++ calls) /\
            flattened s1 = flattened s /\
            flattened (fst (log_eval_result py_str s1)) = flattened s).
  { intros s1 Hr1 Hres1 Hl1 Hst1 Hk1 Htn Hrl.
    destruct (log_eval_result_run py_str s1 r l0 b st k Hr1 Hres1 Hl1 Hst1 Hk1)
      as (X1 & H2).
    cbv zeta in H2. rewrite Htn, Hrl in H2.
    rewrite (flattened_run s l0 b Hres Hl).
    rewrite (flattened_run s1 l0 b Hres1 Hl1), Htn.
    subst first. rewrite H1, H2.
    destruct (sanitize_outcome (stored_tasks b) (self_task_names s))
      as [e|flat] eqn:Hout; simpl.
    - split_and!; [done|by eexists|done|].
      rewrite (flattened_run _ l0 b); [|done|simpl; by apply lookup_app_l_Some].
      simpl. by rewrite Htn, Hout.
    - split_and!; [done|by eexists|done|].
      rewrite (flattened_run _ l0 b); [|done|simpl; by apply lookup_app_l_Some].
      simpl. by rewrite Htn, Hout. }
  destruct (Hstep s Hr Hres Hl Hst Hk eq_refl eq_refl)
    as (_ & (calls & Hc1 & _) & _ & Hf1).
  assert (Hfirst : self_run (fst first) = Some r /\
                   self_results (fst first) = Some l0 /\
                   heap (fst first) !! l0 = Some (PDict b) /\
                   self_step (fst first) = Some st /\
                   self_step_key (fst first) = Some (PStr k) /\
                   self_task_names (fst first) = self_task_names s /\
                   recursion_limit (fst first) = recursion_limit s).
  { subst first. rewrite H1.
    destruct (sanitize_outcome _ _); simpl;
      (split_and!; try done; by apply lookup_app_l_Some). }
  destruct Hfirst as (Hr1 & Hres1 & Hl1 & Hst1 & Hk1 & Htn & Hrl).
  destruct (Hstep (fst first) Hr1 Hres1 Hl1 Hst1 Hk1 Htn Hrl)
    as (Ho & (calls' & Hc1' & Hc2) & _ & Hf2).
  split_and!; [done| |done|done].
  exists calls'. split; [done|]. exact Hc2.
Qed.

End Repeat.

Lemma log_eval_result_repeatable_witness :
  let s := fst ((__init__ [("step", PInt 3)] ;;; post_init 0)
                  (initial_state [PDict example_bundle]
                     (Some (plain_release [0; 16; 0])) None)) in
  let first := log_eval_result name_str s in
  let second := log_eval_result name_str (fst first) in
  snd second = snd first /\
  flattened (fst first) = flattened s.
Proof.
  intros s first second.
  destruct (log_eval_result_repeatable name_str s 0 1 example_bundle (PInt 3)
              "train/step")
    as (H1 & _ & H2 & _); try reflexivity.
  split; [exact H1|exact H2].
Defined.

(** ** The constructor *)

Lemma Version_lt_ge v w : Version_lt v w = negb (Version_ge v w).
Proof. unfold Version_lt, Version_ge. by destruct (compare_key v w). Qed.

Lemma step_key_after_step kwargs :
  match dget "step_key" (ddel "step" kwargs) with
  | Some v => v
  | None => PStr "train/step"
  end = step_key_of kwargs.
Proof. unfold step_key_of. by rewrite dget_ddel_ne. Qed.

Lemma init_run_missing kwargs s :
  wandb_installed s = None ->
  __init__ kwargs s =
    (set_self_step_key (Some (step_key_of kwargs))
       (set_self_step (Some (step_of kwargs))
          (set_self_wandb_args (Some (remaining_kwargs kwargs))
             (set_events
                (events s ++ [EvWarning (ModuleNotFoundError "wandb");
                              EvInfo (step_key_of kwargs) (step_of kwargs)])
                (set_frame_wandb None s)))),
     inl (UnboundLocalError "wandb")).
Proof.
  intros Hw.
  destruct s as [h wi wr rs rl ev fw a_args a_step a_key a_run a_pr a_res
                   a_tn a_wr].
  state_cbn_in Hw. subst wi.
  cbv -[Version_ge Version_lt dget ddel app minimum_version step_key_of].
  rewrite step_key_after_step. by rewrite <- app_assoc.
Qed.

Lemma init_run_installed kwargs s v :
  wandb_installed s = Some v ->
  let run := match wandb_run s with Some r => r | None => runs_started s end in
  let created :=
    match wandb_run s with
    | Some _ => []
    | None => [EvInit (remaining_kwargs kwargs)]
    end in
  __init__ kwargs s =
    (set_self_printer (Some tt)
       (set_self_run (Some run)
          (set_self_step_key (Some (step_key_of kwargs))
             (set_self_step (Some (step_of kwargs))
                (set_self_wandb_args (Some (remaining_kwargs kwargs))
                   (set_events
                      (events s ++ version_warning v
                         ++ [EvInfo (step_key_of kwargs) (step_of kwargs)]
                         ++ created
                         ++ [EvDefineMetric run (step_key_of kwargs) None
                               true false;
                             EvDefineMetric run (PStr "evaluation/*")
                               (Some (step_key_of kwargs)) false true])
                      (set_runs_started
                         (match wandb_run s with
                          | Some _ => runs_started s
                          | None => S (runs_started s)
                          end)
                         (set_wandb_run (Some run)
                            (set_frame_wandb (Some v) s)))))))),
     inr tt).
Proof.
  intros Hw.
  destruct s as [h wi wr rs rl ev fw a_args a_step a_key a_run a_pr a_res
                   a_tn a_wr].
  state_cbn_in Hw. subst wi.
  pose proof (Version_lt_ge v minimum_version) as Hlt.
  destruct (Version_ge v minimum_version) eqn:Hge; cbn [negb] in Hlt;
    destruct wr as [r|];
    cbv -[Version_ge Version_lt dget ddel app minimum_version step_key_of];
    rewrite Hge;
    cbv -[Version_ge Version_lt dget ddel app minimum_version step_key_of];
    rewrite ?Hlt;
    cbv -[Version_ge Version_lt dget ddel app minimum_version step_key_of];
    rewrite step_key_after_step, <- ?app_assoc; reflexivity.
Qed.

Lemma require_calls_app evs1 evs2 :
  require_calls (evs1 ++ evs2) = require_calls evs1 ++ require_calls evs2.
Proof. apply flat_map_app. Qed.

Lemma init_calls_app evs1 evs2 :
  init_calls (evs1 ++ evs2) = init_calls evs1 ++ init_calls evs2.
Proof. apply flat_map_app. Qed.


Lemma init_missing_sdk_raises kwargs s :
  wandb_installed s = None ->
  snd (__init__ kwargs s) = inl (UnboundLocalError "wandb").
Proof. intros Hw. by rewrite (init_run_missing kwargs s Hw). Qed.

Lemma init_installed_sdk_returns kwargs s v :
  wandb_installed s = Some v -> snd (__init__ kwargs s) = inr tt.
Proof. intros Hw. by rewrite (init_run_installed kwargs s v Hw). Qed.

(** Claim C2, on the code.  With no SDK installed and no keyword argument
    the constructor logs its warning and then raises: the name [wandb]
    it reads next was never bound. *)
Theorem init_without_sdk_raises :
  let run := __init__ [] (initial_state [] None None) in
  snd run = inl (UnboundLocalError "wandb") /\
  events (fst run) =
    [EvWarning (ModuleNotFoundError "wandb");
     EvInfo (PStr "train/step") (PInt 0)] /\
  self_run (fst run) = None.
Proof. vm_compute. by split_and!. Qed.

(** With an SDK older than 0.13.6 the constructor warns and goes on. *)
Lemma init_below_minimum_completes :
  let run := __init__ []
               (initial_state [] (Some (plain_release [0; 13; 5])) None) in
  snd run = inr tt /\
  events (fst run) =
    [EvWarning AssertionError;
     EvInfo (PStr "train/step") (PInt 0);
     EvInit [];
     EvDefineMetric 0 (PStr "train/step") None true false;
     EvDefineMetric 0 (PStr "evaluation/*") (Some (PStr "train/step"))
       false true].
Proof. vm_compute. by split_and!. Qed.

(** Claim C10.  Whenever the guard of the legacy branch is evaluated the
    assertion before it has passed, and then the guard is false; so no
    construction, whatever the SDK and the arguments, calls
    [wandb.require]. *)
Theorem require_branch_unreachable v kwargs s :
  Version_ge v minimum_version && Version_lt v minimum_version = false /\
  require_calls (events (fst (__init__ kwargs s))) = require_calls (events s).
Proof.
  split.
  - rewrite Version_lt_ge. by destruct (Version_ge v minimum_version).
  - destruct (wandb_installed s) as [w|] eqn:Hw.
    + rewrite (init_run_installed kwargs s w Hw). simpl.
      rewrite !require_calls_app. unfold version_warning.
      destruct (Version_ge w minimum_version), (wandb_run s); simpl;
        by rewrite app_nil_r.
    + rewrite (init_run_missing kwargs s Hw). simpl.
      rewrite require_calls_app. simpl. by rewrite app_nil_r.
Qed.




(** ** The encoder with the fallback *)

Lemma traverse_inl {A B} (f : A -> result B) xs e :
  traverse f xs = inl e -> exists x, x ∈ xs /\ f x = inl e.
Proof.
  induction xs as [|x xs IH]; simpl; [done|].
  destruct (f x) as [e'|y] eqn:Hx.
  - intros [= ->]. exists x. split; [apply list_elem_of_here|done].
  - destruct (traverse f xs) as [e'|ys]; [|done].
    intros [= ->]. destruct (IH eq_refl) as (x' & Hin & Hx').
    exists x'. split; [by apply list_elem_of_further|done].
Qed.

Lemma traverse_inr {A B} (f : A -> result B) xs ys :
  traverse f xs = inr ys -> Forall2 (fun x y => f x = inr y) xs ys.
Proof.
  revert ys. induction xs as [|x xs IH]; simpl; intros ys.
  - intros [= <-]. constructor.
  - destruct (f x) as [e'|y] eqn:Hx; [done|].
    destruct (traverse f xs) as [e'|ys']; [done|].
    intros [= <-]. constructor; auto.
Qed.

Lemma traverse_total {A B} (f : A -> result B) xs :
  (forall x, x ∈ xs -> exists y, f x = inr y) ->
  exists ys, traverse f xs = inr ys.
Proof.
  induction xs as [|x xs IH]; simpl; intros H; [by eexists|].
  destruct (H x) as [y ->]; [apply list_elem_of_here|].
  destruct IH as [ys ->]; [|by eexists].
  intros x' Hx'. apply H. by apply list_elem_of_further.
Qed.

Lemma height_elem x xs :
  x ∈ xs -> height x <= fold_right (fun x acc => Nat.max (height x) acc) 0 xs.
Proof.
  induction xs as [|y xs IH]; simpl; intros H; [by apply elem_of_nil in H|].
  apply elem_of_cons in H as [->|H]; [lia|]. specialize (IH H). lia.
Qed.

Lemma height_item (kv : string * pyval) (d : dict) :
  kv ∈ d ->
  height (snd kv) <= fold_right (fun kv acc => Nat.max (height (snd kv)) acc) 0 d.
Proof.
  induction d as [|y d IH]; simpl; intros H; [by apply elem_of_nil in H|].
  apply elem_of_cons in H as [->|H]; [lia|]. specialize (IH H). lia.
Qed.

Lemma nodupb_NoDup ks : nodupb ks = true -> NoDup ks.
Proof.
  induction ks as [|k ks IH]; simpl; intros H; [apply NoDup_nil_2|].
  apply andb_true_iff in H as [Hk H]. apply NoDup_cons. split; [|auto].
  intros Hin. apply negb_true_iff in Hk.
  assert (existsb (String.eqb k) ks = true); [|congruence].
  apply existsb_exists. exists k. split; [by apply list_elem_of_In|].
  apply String.eqb_refl.
Qed.

Lemma dict_of_items_app (acc items : dict) :
  NoDup (dkeys acc ++ dkeys items) ->
  fold_left (fun acc kv => dset (fst kv) (snd kv) acc) items acc = acc ++ items.
Proof.
  revert acc. induction items as [|[k v] items IH]; intros acc Hnd; simpl.
  - by rewrite app_nil_r.
  - rewrite dset_fresh.
    + rewrite IH; [by rewrite <- app_assoc|].
      rewrite dkeys_app. simpl. by rewrite <- app_assoc.
    + apply dget_None_keys. simpl in Hnd.
      apply NoDup_app in Hnd as (_ & Hdisj & _). intros Hin.
      apply (Hdisj k Hin). apply list_elem_of_here.
Qed.

Lemma dict_of_items_NoDup items :
  NoDup (dkeys items) -> dict_of_items items = items.
Proof. intros Hnd. unfold dict_of_items. by rewrite dict_of_items_app. Qed.

Section Encoder.

Variable py_str : pyval -> string.

Local Abbreviation fallback := (_handle_non_serializable py_str).

Lemma fallback_in_order o :
  fallback o =
    match isinstance_sized_int o with
    | Some z => PInt z
    | None =>
        match isinstance_set o with
        | Some xs => PList xs
        | None => PStr (py_str o)
        end
    end.
Proof. by destruct o. Qed.

Lemma fallback_native o : natively_serializable (fallback o) = true.
Proof. by destruct o. Qed.

Lemma encode_fallback depth o :
  natively_serializable o = false ->
  json_encode (S depth) (Some fallback) o =
  json_encode depth (Some fallback) (fallback o).
Proof. by destruct o. Qed.

Lemma encode_never_type_error depth o msg :
  json_encode depth (Some fallback) o <> inl (TypeError msg).
Proof.
  revert o. induction depth as [|depth IH]; intros o; [done|].
  destruct o; simpl; try done; try apply IH.
  - destruct (traverse _ xs) as [e|js] eqn:Ht; [|done].
    apply traverse_inl in Ht as (x & _ & Hx). intros [= ->]. by eapply IH.
  - destruct (traverse _ xs) as [e|js] eqn:Ht; [|done].
    apply traverse_inl in Ht as (x & _ & Hx). intros [= ->]. by eapply IH.
  - destruct (traverse _ d) as [e|ms] eqn:Ht; [|done].
    apply traverse_inl in Ht as (kv & _ & Hx). intros [= ->].
    destruct (json_encode depth _ (snd kv)) as [e|j] eqn:He; [|done].
    injection Hx as ->. by eapply IH.
Qed.

Lemma encode_total o :
  forall depth, 2 * height o <= depth ->
  exists j, json_encode depth (Some fallback) o = inr j.
Proof.
  induction o using pyval_rect' with
    (Q := fun xs => forall x, x ∈ xs ->
            forall depth, 2 * height x <= depth ->
            exists j, json_encode depth (Some fallback) x = inr j)
    (R := fun d => forall kv, kv ∈ d ->
            forall depth, 2 * height (snd kv) <= depth ->
            exists j, json_encode depth (Some fallback) (snd kv) = inr j);
    try (intros [|depth] Hd; simpl in Hd; [lia|]; simpl; by eexists).
  - (* list *)
    intros [|depth] Hd; cbn [height] in Hd; [lia|]. cbn [json_encode].
    destruct (traverse_total (json_encode depth (Some fallback)) xs) as [js ->];
      [|by eexists].
    intros x Hx. apply IHo; [done|]. pose proof (height_elem x xs Hx). lia.
  - (* tuple *)
    intros [|depth] Hd; cbn [height] in Hd; [lia|]. cbn [json_encode].
    destruct (traverse_total (json_encode depth (Some fallback)) xs) as [js ->];
      [|by eexists].
    intros x Hx. apply IHo; [done|]. pose proof (height_elem x xs Hx). lia.
  - (* dict *)
    intros [|depth] Hd; cbn [height] in Hd; [lia|]. cbn [json_encode].
    match goal with |- context [traverse ?f d] =>
      destruct (traverse_total f d) as [ms ->]; [|by eexists] end.
    intros kv Hkv. destruct (IHo kv Hkv depth) as [j ->]; [|by eexists].
    pose proof (height_item kv d Hkv). lia.
  - (* set *)
    intros [|[|depth]] Hd; cbn [height] in Hd; [lia|lia|].
    cbn [json_encode _handle_non_serializable].
    destruct (traverse_total (json_encode depth (Some fallback)) xs) as [js ->];
      [|by eexists].
    intros x Hx. apply IHo; [done|]. pose proof (height_elem x xs Hx). lia.
  - (* int64 *) intros [|[|depth]] Hd; simpl in Hd; [lia|lia|]. by eexists.
  - (* int32 *) intros [|[|depth]] Hd; simpl in Hd; [lia|lia|]. by eexists.
  - (* object *) intros [|[|depth]] Hd; simpl in Hd; [lia|lia|]. by eexists.
  - intros x Hx. by apply elem_of_nil in Hx.
  - intros y Hy. apply elem_of_cons in Hy as [->|Hy]; auto.
  - intros x Hx. by apply elem_of_nil in Hx.
  - intros y Hy. apply elem_of_cons in Hy as [->|Hy]; auto.
Qed.

End Encoder.

Section Artifact.

Variable py_str : pyval -> string.

Local Abbreviation fallback := (_handle_non_serializable py_str).

Lemma decode_items depth (xs : list pyval) js :
  (forall o j, keys_distinct o = true ->
     json_encode depth (Some fallback) o = inr j ->
     json_decode j = decoded py_str o) ->
  forallb keys_distinct xs = true ->
  Forall2 (fun x y => json_encode depth (Some fallback) x = inr y) xs js ->
  map json_decode js = map (decoded py_str) xs.
Proof.
  intros IH Hk H. induction H as [|x y xs js Hxy H IHl]; simpl; [done|].
  simpl in Hk. apply andb_true_iff in Hk as [Hx Hk].
  rewrite (IH x y Hx Hxy), IHl; done.
Qed.

Lemma decode_members depth (d : dict) ms :
  (forall o j, keys_distinct o = true ->
     json_encode depth (Some fallback) o = inr j ->
     json_decode j = decoded py_str o) ->
  forallb (fun kv => keys_distinct (snd kv)) d = true ->
  Forall2 (fun kv m =>
             match json_encode depth (Some fallback) (snd kv) with
             | inl e => inl e
             | inr j => inr (fst kv, j)
             end = inr m) d ms ->
  map (fun m => (fst m, json_decode (snd m))) ms =
  map (fun kv => (fst kv, decoded py_str (snd kv))) d.
Proof.
  intros IH Hk H. induction H as [|kv m d ms Hkm H IHl]; simpl; [done|].
  simpl in Hk. apply andb_true_iff in Hk as [Hx Hk].
  destruct (json_encode depth _ (snd kv)) as [e|j] eqn:He; [done|].
  injection Hkm as <-. simpl. rewrite (IH (snd kv) j Hx He), IHl; done.
Qed.

Lemma decode_encode depth o j :
  keys_distinct o = true ->
  json_encode depth (Some fallback) o = inr j ->
  json_decode j = decoded py_str o.
Proof.
  revert o j. induction depth as [|depth IH]; intros o j Hk He; [done|].
  destruct o; simpl in He.
  - by injection He as <-.
  - by injection He as <-.
  - by injection He as <-.
  - by injection He as <-.
  - by injection He as <-.
  - destruct (traverse _ xs) as [e|js] eqn:Ht; [done|]. injection He as <-.
    simpl. f_equal. apply (decode_items depth); [done|done|].
    by apply traverse_inr.
  - destruct (traverse _ xs) as [e|js] eqn:Ht; [done|]. injection He as <-.
    simpl. f_equal. apply (decode_items depth); [done|done|].
    by apply traverse_inr.
  - destruct (traverse _ d) as [e|ms] eqn:Ht; [done|]. injection He as <-.
    simpl in Hk. apply andb_true_iff in Hk as [Hnd Hk].
    cbn [json_decode decoded]. f_equal.
    rewrite (decode_members depth d ms IH Hk (traverse_inr _ _ _ Ht)).
    apply dict_of_items_NoDup. unfold dkeys. rewrite map_map. simpl.
    by apply nodupb_NoDup.
  - apply (IH (PList xs) j); done.
  - apply (IH (PInt z) j); done.
  - apply (IH (PInt z) j); done.
  - apply (IH (PStr (py_str (PObject name))) j); done.
Qed.

Lemma decoded_plain o : plain o = true -> decoded py_str o = o.
Proof.
  induction o using pyval_rect' with
    (Q := fun xs => forallb plain xs = true -> map (decoded py_str) xs = xs)
    (R := fun d => forallb (fun kv => plain (snd kv)) d = true ->
            map (fun kv => (fst kv, decoded py_str (snd kv))) d = d);
    simpl; try done.
  - intros H. by rewrite IHo.
  - intros H. by rewrite IHo.
  - intros H. apply andb_true_iff in H as [H1 H2]. by rewrite IHo, IHo0.
  - intros H. apply andb_true_iff in H as [H1 H2]. by rewrite IHo, IHo0.
Qed.

(** Claim C8, as amended.  For every stored bundle (its mappings with
    distinct keys, as Python's are), the document the encoder writes
    parses back to the bundle in which sized integers have become
    integers, sets and tuples have become lists of the same elements in
    the same order, and every other object has become its string; a
    bundle made of JSON's own kinds alone parses back to itself.  The
    encoder does write the document, given the depth the nesting
    needs. *)
Theorem artifact_round_trip o depth :
  keys_distinct o = true ->
  (forall j, json_encode depth (Some fallback) o = inr j ->
             json_decode j = decoded py_str o) /\
  (exists j, json_encode (2 * height o + depth) (Some fallback) o = inr j /\
             json_decode j = decoded py_str o) /\
  (if plain o then decoded py_str o = o else True).
Proof.
  intros Hk. split_and!.
  - intros j. by apply decode_encode.
  - destruct (encode_total py_str o (2 * height o + depth)) as [j Hj]; [lia|].
    exists j. split; [done|]. by eapply decode_encode.
  - destruct (plain o) eqn:Hp; [|done]. by apply decoded_plain.
Qed.

End Artifact.

(** A set goes out as an array of its elements in iteration order. *)
Lemma set_encodes_as_array :
  json_encode 10 (Some (_handle_non_serializable name_str))
    (PSet [PInt 1; PInt 2; PInt 3]) = inr (JArray [JInt 1; JInt 2; JInt 3]).
Proof. reflexivity. Qed.

(** Without the fallback the same value is refused. *)
Lemma set_without_fallback_raises :
  json_encode 10 None (PSet [PInt 1; PInt 2; PInt 3]) =
  inl (TypeError "Object is not JSON serializable").
Proof. reflexivity. Qed.

Lemma artifact_round_trip_witness :
  let o := PDict [("results", PDict [("t", PDict [("n", PNpInt64 7);
                                                  ("tags", PSet [PStr "a"])])]);
                  ("config", PDict [("model", PObject "<Model>")])] in
  exists j, json_encode (2 * height o + 0)
              (Some (_handle_non_serializable name_str)) o = inr j /\
            json_decode j =
              PDict [("results", PDict [("t", PDict [("n", PInt 7);
                                                     ("tags", PList [PStr "a"])])]);
                     ("config", PDict [("model", PStr "<Model>")])].
Proof.
  intros o.
  destruct (artifact_round_trip name_str o 0 eq_refl) as (_ & H & _).
  exact H.
Defined.

(** Claim C8 as stated fails on a tuple: the encoder writes it as an
    array without calling the fallback, and the array parses as a list,
    so a bundle of serializable values does not come back as it was. *)
Lemma tuple_decodes_as_list :
  let o := PDict [("results", PDict []);
                  ("config", PDict [("shape", PTuple [PInt 1; PInt 2])])] in
  let dumped := json_encode 1000 (Some (_handle_non_serializable name_str)) o in
  dumped = inr (JObject [("results", JObject []);
                         ("config",
                          JObject [("shape", JArray [JInt 1; JInt 2])])]) /\
  natively_serializable (PTuple [PInt 1; PInt 2]) = true /\
  (forall j, dumped = inr j ->
     json_decode j =
       PDict [("results", PDict []);
              ("config", PDict [("shape", PList [PInt 1; PInt 2])])] /\
     json_decode j <> o).
Proof.
  vm_compute. split_and!; try reflexivity.
  intros j [= <-]. split; [reflexivity|discriminate].
Qed.

(** ** The run's persisted configuration *)

Lemma persisted_config_app run initial evs1 evs2 :
  persisted_config run initial (evs1 ++ evs2) =
  persisted_config run (persisted_config run initial evs1) evs2.
Proof. apply fold_left_app. Qed.

Lemma persisted_config_metric_events run cfg r sk keys :
  persisted_config run cfg (metric_events r sk keys) = cfg.
Proof. revert cfg. induction keys as [|key keys IH]; intros cfg; simpl; auto. Qed.

Section Config.

Variable py_str : pyval -> string.

(** Claim C9, as amended.  [log_eval_result] stores the stored bundle's
    "config" mapping, whole, under the one key "bigcode_eval" of the
    run's persisted configuration: an entry already under that key is
    replaced, and every other entry is left as it was. *)
Theorem config_stored_under_bigcode_eval s r l0 b st k initial :
  self_run s = Some r ->
  self_results s = Some l0 ->
  heap s !! l0 = Some (PDict b) ->
  self_step s = Some st ->
  self_step_key s = Some (PStr k) ->
  let s' := fst (log_eval_result py_str s) in
  let before := persisted_config r initial (events s) in
  let after := persisted_config r initial (events s') in
  after = dset "bigcode_eval" (stored_config b) before /\
  dget "bigcode_eval" after = Some (stored_config b) /\
  (forall key, key <> "bigcode_eval" -> dget key after = dget key before).
Proof.
  intros Hr Hres Hl Hst Hk s' before after.
  assert (Hafter : after = dset "bigcode_eval" (stored_config b) before).
  { subst after before s'.
    destruct (log_eval_result_run py_str s r l0 b st k Hr Hres Hl Hst Hk)
      as (X & ->).
    destruct (sanitize_outcome _ _) as [e|flat]; simpl.
    - rewrite persisted_config_app. simpl. by rewrite Nat.eqb_refl.
    - rewrite persisted_config_app. simpl. rewrite Nat.eqb_refl.
      rewrite persisted_config_app, persisted_config_metric_events. done. }
  split_and!; [done| |].
  - rewrite Hafter. apply dget_dset_eq.
  - intros key Hkey. rewrite Hafter. by apply dget_dset_ne.
Qed.

End Config.

Lemma config_stored_under_bigcode_eval_witness :
  let s := fst ((__init__ [] ;;; post_init 0)
                  (initial_state [PDict example_bundle]
                     (Some (plain_release [0; 16; 0])) None)) in
  let s' := fst (log_eval_result name_str s) in
  persisted_config 0 [("bigcode_eval", PStr "old"); ("lr", PInt 1)] (events s')
  = dset "bigcode_eval" (PDict [("seed", PInt 0)])
      (persisted_config 0 [("bigcode_eval", PStr "old"); ("lr", PInt 1)]
         (events s)).
Proof.
  intros s s'.
  destruct (config_stored_under_bigcode_eval name_str s 0 1 example_bundle
              (PInt 0) "train/step"
              [("bigcode_eval", PStr "old"); ("lr", PInt 1)]
              eq_refl eq_refl eq_refl eq_refl eq_refl)
    as (H & _).
  exact H.
Defined.

(** Claim C9 as stated fails: the entries of the bundle's configuration
    are not merged into the persisted configuration, so an entry with the
    same key ("seed") is not overwritten. *)
Lemma config_entries_not_merged :
  let s := fst ((__init__ [] ;;; post_init 0)
                  (initial_state [PDict example_bundle]
                     (Some (plain_release [0; 16; 0])) None)) in
  let s' := fst (log_eval_result name_str s) in
  let after := persisted_config 0 [("seed", PInt 1)] (events s') in
  stored_config example_bundle = PDict [("seed", PInt 0)] /\
  after = [("seed", PInt 1); ("bigcode_eval", PDict [("seed", PInt 0)])] /\
  dget "seed" after <> Some (PInt 0).
Proof.
  vm_compute. split_and!; try reflexivity. discriminate.
Qed.

(** ** What a method leaves as it was, and methods that always raise *)

(** Evaluating the setters on a state given by its fields, innermost
    first. *)
Ltac state_cbv :=
  cbv [set_heap set_wandb_run set_runs_started set_events set_frame_wandb
       set_self_wandb_args set_self_step set_self_step_key set_self_run
       set_self_printer set_self_results set_self_task_names
       set_self_wandb_results heap wandb_installed wandb_run runs_started
       recursion_limit events frame_wandb self_wandb_args self_step
       self_step_key self_run self_printer self_results self_task_names
       self_wandb_results].

Lemma keeps_ret {A B} (f : state -> B) (a : A) : keeps f (ret a).
Proof. by intros s. Qed.

Lemma keeps_raise {A B} (f : state -> B) e : keeps f (raise (A := A) e).
Proof. by intros s. Qed.

Lemma keeps_bind {A C B} (f : state -> B) (m : M A) (k : A -> M C) :
  keeps f m -> (forall a, keeps f (k a)) -> keeps f (bind m k).
Proof.
  intros Hm Hk s. unfold bind. specialize (Hm s).
  destruct (m s) as [s1 [e|a]]; simpl in *; [done|].
  by rewrite Hk.
Qed.

Lemma keeps_for_each {A B} (f : state -> B) (xs : list A) body :
  (forall x, keeps f (body x)) -> keeps f (for_each xs body).
Proof.
  intros Hb. induction xs as [|x xs IH]; simpl; [apply keeps_ret|].
  apply keeps_bind; [apply Hb|]. by intros _.
Qed.

Lemma keeps_getattr {A B} (f : state -> B) name (field : state -> option A) :
  keeps f (getattr name field).
Proof. intros s. unfold getattr. by destruct (field s). Qed.

Lemma keeps_modify {B} (f : state -> B) g :
  (forall s, f (g s) = f s) -> keeps f (modify g).
Proof. intros H s. apply H. Qed.

Lemma keeps_load {B} (f : state -> B) l : keeps f (load l).
Proof. intros s. unfold load. by destruct (heap s !! l). Qed.

Lemma keeps_py_get {B} (f : state -> B) o k d : keeps f (py_get o k d).
Proof. destruct o; first [apply keeps_ret | apply keeps_raise]. Qed.

Lemma keeps_py_items {B} (f : state -> B) o : keeps f (py_items o).
Proof. destruct o; first [apply keeps_ret | apply keeps_raise]. Qed.

Lemma keeps_py_iter {B} (f : state -> B) o : keeps f (py_iter o).
Proof. destruct o; first [apply keeps_ret | apply keeps_raise]. Qed.

Lemma keeps_as_key {B} (f : state -> B) v : keeps f (as_key v).
Proof. destruct v; first [apply keeps_ret | apply keeps_raise]. Qed.

Lemma keeps_json_dumps {B} (f : state -> B) o default :
  keeps f (json_dumps o default).
Proof. by intros s. Qed.

Lemma keeps_load_global {B} (f : state -> B) name :
  keeps f (load_global name).
Proof.
  unfold load_global.
  destruct (existsb _ _); [apply keeps_ret | apply keeps_raise].
Qed.

(** Observations that do not read the heap are kept by every heap
    access. *)
Section KeepsOutsideHeap.

Context {B : Type} (f : state -> B).
Hypothesis f_heap : forall h s, f (set_heap h s) = f s.

Lemma keeps_alloc v : keeps f (alloc v).
Proof. intros s. apply f_heap. Qed.

Lemma keeps_store l v : keeps f (store l v).
Proof. intros s. apply f_heap. Qed.

Lemma keeps_setitem l k v : keeps f (setitem l k v).
Proof.
  unfold setitem. apply keeps_bind; [apply keeps_load|].
  intros o. destruct o; first [apply keeps_store | apply keeps_raise].
Qed.

Lemma keeps_pop l k : keeps f (pop l k).
Proof.
  unfold pop. apply keeps_bind; [apply keeps_load|].
  intros o. destruct o; try apply keeps_raise.
  destruct (dget k d); [|apply keeps_raise].
  apply keeps_bind; [apply keeps_store|]. intros _. apply keeps_ret.
Qed.

Lemma keeps_pop_in l k1 k2 : keeps f (pop_in l k1 k2).
Proof.
  unfold pop_in. apply keeps_bind; [apply keeps_load|].
  intros o. destruct o; try apply keeps_raise.
  destruct (dget k1 d) as [t|]; [|apply keeps_raise].
  destruct t; try apply keeps_raise.
  destruct (dget k2 d0); [|apply keeps_raise].
  apply keeps_bind; [apply keeps_store|]. intros _. apply keeps_ret.
Qed.

Lemma keeps_sanitize_results_dict : keeps f _sanitize_results_dict.
Proof.
  unfold _sanitize_results_dict.
  apply keeps_bind; [apply keeps_getattr|]. intros stored.
  apply keeps_bind; [apply keeps_load|]. intros bundle.
  apply keeps_bind; [apply keeps_py_get|]. intros tasks.
  apply keeps_bind; [apply keeps_alloc|]. intros _results.
  apply keeps_bind; [apply keeps_load|]. intros copy_of.
  apply keeps_bind; [apply keeps_alloc|]. intros tmp_results.
  apply keeps_bind; [apply keeps_load|]. intros tmp.
  apply keeps_bind; [apply keeps_py_items|]. intros task_items.
  apply keeps_bind.
  { apply keeps_for_each. intros task.
    apply keeps_bind; [apply keeps_py_items|]. intros metric_items.
    apply keeps_for_each. intros metric.
    apply keeps_bind; [apply keeps_setitem|]. intros _.
    apply keeps_bind; [apply keeps_pop_in|]. intros _. apply keeps_ret. }
  intros _.
  apply keeps_bind; [apply keeps_getattr|]. intros task_names.
  apply keeps_bind.
  { apply keeps_for_each. intros task.
    apply keeps_bind; [apply keeps_pop|]. intros _. apply keeps_ret. }
  intros _. apply keeps_ret.
Qed.

End KeepsOutsideHeap.

Lemma raises_bind_r {A C} (m : M A) (k : A -> M C) :
  (forall a, raises (k a)) -> raises (bind m k).
Proof.
  intros Hk s. unfold bind. destruct (m s) as [s1 [e|a]]; simpl.
  - by exists e.
  - apply Hk.
Qed.

Lemma artifact_calls_app evs1 evs2 :
  artifact_calls (evs1 ++ evs2) = artifact_calls evs1 ++ artifact_calls evs2.
Proof. apply flat_map_app. Qed.

Lemma warning_calls_app evs1 evs2 :
  warning_calls (evs1 ++ evs2) = warning_calls evs1 ++ warning_calls evs2.
Proof. apply flat_map_app. Qed.

Lemma keeps_emit_no_artifact e :
  artifact_calls [e] = [] ->
  keeps (fun s => artifact_calls (events s)) (emit e).
Proof.
  intros He. apply keeps_modify. intros s. simpl.
  by rewrite artifact_calls_app, He, app_nil_r.
Qed.

Section ArtifactUpload.

Variable py_str : pyval -> string.

Local Abbreviation fallback := (_handle_non_serializable py_str).

(** Property X1. [_log_results_as_artifact] never uploads anything: from
    every state it ends in an exception and leaves the state, the recorded
    SDK calls included, as it was. With no bundle attached the exception is
    the [AttributeError] of the attribute [results]; with one attached the
    method raises as well, at the latest where it reads the name [wandb],
    which the module never binds. *)
Theorem log_results_as_artifact_always_raises s :
  fst (_log_results_as_artifact py_str s) = s /\
  artifact_calls (events (fst (_log_results_as_artifact py_str s)))
  = artifact_calls (events s) /\
  match self_results s with
  | None =>
      snd (_log_results_as_artifact py_str s) = inl (AttributeError "results")
  | Some _ => exists e, snd (_log_results_as_artifact py_str s) = inl e
  end.
Proof.
  assert (Hfst : fst (_log_results_as_artifact py_str s) = s).
  { unfold _log_results_as_artifact, bind, getattr, load, json_dumps.
    destruct (self_results s) as [l0|]; [|done].
    destruct (heap s !! l0) as [v|]; [|done].
    by destruct (json_encode _ _ _). }
  split_and!; [done|by rewrite Hfst|].
  unfold _log_results_as_artifact, bind, getattr, load, json_dumps.
  destruct (self_results s) as [l0|]; [|done].
  destruct (heap s !! l0) as [v|]; [|by eexists].
  destruct (json_encode _ _ _); by eexists.
Qed.

Lemma raises_log_results_as_artifact : raises (_log_results_as_artifact py_str).
Proof.
  intros s. unfold _log_results_as_artifact, bind, getattr, load, json_dumps.
  destruct (self_results s) as [l0|]; [|by eexists].
  destruct (heap s !! l0) as [v|]; [|by eexists].
  destruct (json_encode _ _ _); by eexists.
Qed.

Lemma keeps_log_results_as_artifact {B} (f : state -> B) :
  keeps f (_log_results_as_artifact py_str).
Proof.
  intros s. unfold _log_results_as_artifact, bind, getattr, load, json_dumps.
  destruct (self_results s) as [l0|]; [|done].
  destruct (heap s !! l0) as [v|]; [|done].
  by destruct (json_encode _ _ _).
Qed.

(** Property X2. [log_eval_result] never returns normally and never uploads
    an artifact: from every state, whatever the logger's attributes and the
    attached bundle, the call ends in an exception, and the artifacts among
    the recorded SDK calls are those recorded before the call. *)
Theorem log_eval_result_never_returns s :
  (exists e, snd (log_eval_result py_str s) = inl e) /\
  artifact_calls (events (fst (log_eval_result py_str s)))
  = artifact_calls (events s).
Proof.
  split.
  - revert s. change (raises (log_eval_result py_str)).
    unfold log_eval_result.
    repeat lazymatch goal with
           | |- raises (bind _ _) => apply raises_bind_r; intros ?
           end.
    apply raises_log_results_as_artifact.
  - revert s.
    change (keeps (fun s => artifact_calls (events s))
              (log_eval_result py_str)).
    unfold log_eval_result.
    apply keeps_bind; [apply keeps_getattr|]. intros run.
    apply keeps_bind; [apply keeps_getattr|]. intros stored.
    apply keeps_bind; [apply keeps_load|]. intros bundle.
    apply keeps_bind; [apply keeps_py_get|]. intros config.
    apply keeps_bind; [by apply keeps_emit_no_artifact|]. intros _.
    apply keeps_bind; [by apply keeps_sanitize_results_dict|]. intros flat.
    apply keeps_bind; [by apply keeps_modify|]. intros _.
    apply keeps_bind; [apply keeps_getattr|]. intros wandb_results.
    apply keeps_bind; [apply keeps_load|]. intros mapping.
    apply keeps_bind; [apply keeps_py_iter|]. intros keys.
    apply keeps_bind.
    { apply keeps_for_each. intros key.
      apply keeps_bind; [apply keeps_getattr|]. intros run'.
      apply keeps_bind; [apply keeps_getattr|]. intros step_key.
      by apply keeps_emit_no_artifact. }
    intros _.
    apply keeps_bind; [apply keeps_getattr|]. intros step.
    apply keeps_bind; [apply keeps_getattr|]. intros wandb_results'.
    apply keeps_bind; [apply keeps_getattr|]. intros step_key.
    apply keeps_bind; [apply keeps_as_key|]. intros k.
    apply keeps_bind; [by apply keeps_setitem|]. intros _.
    apply keeps_bind; [apply keeps_getattr|]. intros run'.
    apply keeps_bind; [apply keeps_getattr|]. intros wandb_results''.
    apply keeps_bind; [apply keeps_load|]. intros mapping'.
    apply keeps_bind; [by apply keeps_emit_no_artifact|]. intros _.
    apply keeps_log_results_as_artifact.
Qed.

End ArtifactUpload.

(** Property X3. [_sanitize_results_dict] only builds new objects: from
    every state, and whether it returns or raises, it changes no attribute
    of the logger (the attached bundle's reference and the recorded task
    names included), makes no SDK call, and leaves every object that existed
    before the call with the value it had. *)
Theorem sanitize_results_dict_only_allocates s :
  let s' := fst (_sanitize_results_dict s) in
  outside_heap s' = outside_heap s /\
  length (heap s) <= length (heap s') /\
  (forall l, l < length (heap s) -> heap s' !! l = heap s !! l).
Proof.
  intros s'. split.
  - by apply (keeps_sanitize_results_dict outside_heap).
  - by apply (frame_sanitize_results_dict (length (heap s)) s).
Qed.

(** ** The calls [log_eval_result] makes for a well-formed bundle *)

Lemma sanitize_outcome_slash_free ts :
  NoDup (dkeys ts) ->
  Forall task_ok ts ->
  (forall t, t ∈ dkeys ts -> has_slash t = false) ->
  sanitize_outcome (PDict ts) (Some (dkeys ts)) = inr (flat_entries ts).
Proof.
  intros Hnd Hok Hslash.
  apply sanitize_outcome_flat; [done|done|by apply NoDup_flat_keys|].
  intros k Hk Hk'. apply flat_keys_have_slash in Hk.
  rewrite (Hslash k Hk') in Hk. discriminate.
Qed.

Lemma dkeys_dset_present k v d : k ∈ dkeys d -> dkeys (dset k v d) = dkeys d.
Proof.
  induction d as [|[k' v'] d IH]; simpl; intros H.
  - by apply elem_of_nil in H.
  - destruct (String.eqb k k') eqn:E; simpl.
    + apply String.eqb_eq in E. by subst.
    + f_equal. apply IH. apply elem_of_cons in H as [->|H]; [|done].
      by rewrite String.eqb_refl in E.
Qed.

Lemma dkeys_dset_absent k v d :
  k ∉ dkeys d -> dkeys (dset k v d) = dkeys d ++ [k].
Proof.
  intros H. apply dget_None_keys in H.
  by rewrite (dset_fresh _ _ _ H), dkeys_app.
Qed.

Section AttachAndLog.

Variable py_str : pyval -> string.

Lemma attach_and_log_run s lc b ts flat r st k :
  heap s !! lc = Some (PDict b) ->
  stored_tasks b = PDict ts ->
  sanitize_outcome (PDict ts) (Some (dkeys ts)) = inr flat ->
  self_run s = Some r ->
  self_step s = Some st ->
  self_step_key s = Some (PStr k) ->
  (post_init lc ;;; log_eval_result py_str) s =
    (set_self_wandb_results (Some (S (length (heap s))))
       (set_events
          (events s
             ++ EvConfigUpdate r [("bigcode_eval", stored_config b)] true
             :: metric_events r (PStr k) (dkeys flat)
             ++ [EvLog r (PDict (dset k st flat))])
          (set_heap (heap s ++ [PDict b; PDict (dset k st flat); PDict ts])
             (set_self_task_names (Some (dkeys ts))
                (set_self_results (Some (length (heap s))) s)))),
     inl (artifact_error py_str (recursion_limit s) (PDict b))).
Proof.
  intros Hl Hts Hflat Hr Hst Hk.
  unfold bind at 1. rewrite (post_init_run s lc b Hl), Hts. cbv zeta.
  cbv beta iota.
  set (s1 := set_self_task_names _ _).
  destruct (log_eval_result_run py_str s1 r (length (heap s)) b st k)
    as (X & Hrun); try done.
  { subst s1. simpl. apply lookup_at_end. }
  cbv zeta in Hrun. rewrite Hrun, Hts. subst s1.
  cbn [self_task_names set_self_task_names]. rewrite Hflat.
  destruct s.
  cbn [fst]. state_cbv.
  rewrite <- !app_assoc, length_app. simpl. by rewrite Nat.add_1_r.
Qed.


(** Property X5. In the mapping [log_eval_result] passes to the run's [log],
    the step key always holds the step. When the step key equals a flattened
    key "task/metric", the assignment [self.wandb_results[self.step_key] =
    self.step] replaces that metric's value in place, so the metric is not
    logged; otherwise the step key is added after the metrics. Every other
    key keeps its flattened value. *)
Theorem step_key_overrides_metric s lc b ts r st k :
  heap s !! lc = Some (PDict b) ->
  dget "results" b = Some (PDict ts) ->
  NoDup (dkeys ts) ->
  Forall task_ok ts ->
  (forall t, t ∈ dkeys ts -> has_slash t = false) ->
  self_run s = Some r ->
  self_step s = Some st ->
  self_step_key s = Some (PStr k) ->
  let s' := fst ((post_init lc ;;; log_eval_result py_str) s) in
  exists calls payload l,
    events s' = events s ++ calls ++ [EvLog r (PDict payload)] /\
    self_wandb_results s' = Some l /\
    heap s' !! l = Some (PDict payload) /\
    dget k payload = Some st /\
    (forall key, key <> k -> dget key payload = dget key (flat_entries ts)) /\
    ((k ∈ dkeys (flat_entries ts)) ->
       dkeys payload = dkeys (flat_entries ts)) /\
    ((k ∉ dkeys (flat_entries ts)) ->
       dkeys payload = dkeys (flat_entries ts) ++ [k]).
Proof.
  intros Hl Hres Hnd Hok Hslash Hr Hst Hk s'. subst s'.
  assert (Hts : stored_tasks b = PDict ts)
    by (unfold stored_tasks; by rewrite Hres).
  rewrite (attach_and_log_run s lc b ts (flat_entries ts) r st k); try done;
    [|by apply sanitize_outcome_slash_free].
  exists (EvConfigUpdate r [("bigcode_eval", stored_config b)] true
            :: metric_events r (PStr k) (dkeys (flat_entries ts))),
    (dset k st (flat_entries ts)), (S (length (heap s))).
  split_and!.
  - done.
  - done.
  - simpl. rewrite (lookup_app_r (heap s)) by lia.
    replace (S (length (heap s)) - length (heap s)) with 1 by lia. done.
  - apply dget_dset_eq.
  - intros key Hne. apply dget_dset_ne. congruence.
  - apply dkeys_dset_present.
  - apply dkeys_dset_absent.
Qed.

End AttachAndLog.

(** ** Malformed bundles and calls out of order *)

Lemma fold_result_app {A} (f : dict -> A -> result dict) xs ys d :
  fold_result f (xs ++ ys) d =
  match fold_result f xs d with
  | inl e => inl e
  | inr d' => fold_result f ys d'
  end.
Proof.
  revert d. induction xs as [|x xs IH]; intros d; simpl; [done|].
  by destruct (f d x).
Qed.

Lemma flatten_task_non_mapping d t v :
  (forall ms, v <> PDict ms) ->
  flatten_task d (t, v) = inl (AttributeError "items").
Proof.
  intros Hv. unfold flatten_task. simpl.
  destruct v; try done. by destruct (Hv d0).
Qed.

Lemma sanitize_outcome_non_mapping pre t v post :
  NoDup (dkeys (pre ++ (t, v) :: post)) ->
  (forall name, name ∈ dkeys (pre ++ (t, v) :: post) ->
     has_slash name = false) ->
  Forall task_ok pre ->
  (forall ms, v <> PDict ms) ->
  sanitize_outcome (PDict (pre ++ (t, v) :: post))
    (Some (dkeys (pre ++ (t, v) :: post)))
  = inl (AttributeError "items").
Proof.
  intros Hnd Hslash Hok Hv. unfold sanitize_outcome.
  rewrite fold_result_app.
  rewrite dkeys_app in Hnd. pose proof Hnd as Hnd0.
  apply NoDup_app in Hnd as (Hpre & Hdisj & _).
  assert (Hpre_slash :
            forall name, name ∈ dkeys pre -> has_slash name = false).
  { intros name Hin. apply Hslash. rewrite dkeys_app, elem_of_app. by left. }
  pose proof (flatten_tasks_run [] ((t, v) :: post) pre) as H. simpl in H.
  rewrite H; [|done|done|by apply NoDup_flat_keys|].
  - cbn [fold_result]. by rewrite flatten_task_non_mapping.
  - intros k Hk. pose proof (flat_keys_have_slash k pre Hk) as Hs.
    split_and!.
    + apply not_elem_of_nil.
    + intros Hin. by rewrite (Hpre_slash k Hin) in Hs.
    + intros Hin. rewrite (Hslash k) in Hs; [done|].
      rewrite dkeys_app, elem_of_app. by right.
Qed.

(** Property X6. A task whose value is not a mapping is accepted by
    [post_init] and rejected by the flattening: for a bundle with distinct
    task names without "/" in which the tasks before that one are well
    formed, [post_init] returns normally and [_sanitize_results_dict] raises
    [AttributeError] where it asks the value for its items. *)
Theorem non_mapping_task_raises s lc b pre t v post :
  heap s !! lc = Some (PDict b) ->
  dget "results" b = Some (PDict (pre ++ (t, v) :: post)) ->
  NoDup (dkeys (pre ++ (t, v) :: post)) ->
  (forall name, name ∈ dkeys (pre ++ (t, v) :: post) ->
     has_slash name = false) ->
  Forall task_ok pre ->
  (forall ms, v <> PDict ms) ->
  snd (post_init lc s) = inr tt /\
  snd ((post_init lc ;;; _sanitize_results_dict) s)
  = inl (AttributeError "items").
Proof.
  intros Hl Hres Hnd Hslash Hok Hv.
  assert (Hts : stored_tasks b = PDict (pre ++ (t, v) :: post))
    by (unfold stored_tasks; by rewrite Hres).
  split.
  - by rewrite (post_init_run s lc b Hl), Hts.
  - destruct (attach_and_flatten_run s lc b Hl _ Hts) as (X & Hrun & _).
    rewrite Hrun. cbn [snd].
    by rewrite sanitize_outcome_non_mapping.
Qed.

(** Property X7. [post_init] is not atomic. When the bundle's "results"
    entry is not a mapping, the call raises [AttributeError] at [.keys()],
    but the copy of the bundle has already been assigned to [self.results];
    the recorded task names are those of the previous call, if any. *)
Theorem post_init_fails_after_storing_copy s lc b v :
  heap s !! lc = Some (PDict b) ->
  dget "results" b = Some v ->
  (forall ts, v <> PDict ts) ->
  let run := post_init lc s in
  snd run = inl (AttributeError "keys") /\
  self_results (fst run) = Some (length (heap s)) /\
  heap (fst run) !! length (heap s) = Some (PDict b) /\
  self_task_names (fst run) = self_task_names s.
Proof.
  intros Hl Hres Hv run. subst run.
  rewrite (post_init_run s lc b Hl). unfold stored_tasks. rewrite Hres.
  cbv zeta.
  destruct v; try (split_and!; [done|done|apply lookup_at_end|done]).
  by destruct (Hv d).
Qed.

Section OutOfOrder.

Variable py_str : pyval -> string.

(** Property X8. Calling [log_eval_result] on a logger that has just been
    constructed, before any bundle was attached with [post_init], raises
    [AttributeError] for the attribute [results] and does nothing else: no
    SDK call is made and no attribute or object changes. *)
Theorem log_eval_result_before_post_init kwargs s v :
  wandb_installed s = Some v ->
  self_results s = None ->
  let s1 := fst (__init__ kwargs s) in
  snd (__init__ kwargs s) = inr tt /\
  log_eval_result py_str s1 = (s1, inl (AttributeError "results")).
Proof.
  intros Hw Hres s1. subst s1.
  rewrite (init_run_installed kwargs s v Hw). cbv zeta. cbn [fst snd].
  split; [done|].
  destruct s. state_cbn_in Hres. subst.
  cbn [fst]. state_cbv.
  reflexivity.
Qed.

(** Property X9. A failed flattening leaves [log_eval_result] half done. On
    a constructed logger with an attached bundle, when
    [_sanitize_results_dict] raises, [log_eval_result] raises the same
    exception after the configuration update has already been sent: that
    update is the only SDK call recorded, no metric is defined or logged,
    and [self.wandb_results] keeps its previous value. *)
Theorem failed_flattening_after_config_update s r l0 b st k e :
  self_run s = Some r ->
  self_results s = Some l0 ->
  heap s !! l0 = Some (PDict b) ->
  self_step s = Some st ->
  self_step_key s = Some (PStr k) ->
  flattened s = inl e ->
  let run := log_eval_result py_str s in
  snd run = inl e /\
  events (fst run) =
    events s ++ [EvConfigUpdate r [("bigcode_eval", stored_config b)] true] /\
  self_wandb_results (fst run) = self_wandb_results s.
Proof.
  intros Hr Hres Hl Hst Hk Hflat run. subst run.
  rewrite (flattened_run s l0 b Hres Hl) in Hflat.
  destruct (log_eval_result_run py_str s r l0 b st k Hr Hres Hl Hst Hk)
    as (X & ->).
  destruct (sanitize_outcome _ _) as [e'|flat]; [|done].
  injection Hflat as ->. by destruct s.
Qed.

(** Property X12. The attached bundle is a snapshot. After [post_init],
    whatever the caller then writes into the object they passed, the
    logger's stored bundle, the mapping [_sanitize_results_dict] returns and
    the outcome of [_log_results_as_artifact] are what they were. *)
Theorem attached_bundle_is_a_snapshot s lc b v' :
  heap s !! lc = Some (PDict b) ->
  let s1 := fst (post_init lc s) in
  let s2 := fst (store lc v' s1) in
  heap s2 !! lc = Some v' /\
  (exists l0, self_results s2 = Some l0 /\ heap s2 !! l0 = Some (PDict b)) /\
  flattened s2 = flattened s1 /\
  snd (_log_results_as_artifact py_str s2)
  = snd (_log_results_as_artifact py_str s1).
Proof.
  intros Hl s1 s2.
  destruct (post_init_stores_copy s lc (PDict b) Hl) as [Hres Hheap].
  fold s1 in Hres, Hheap.
  pose proof (lookup_lt_Some _ _ _ Hl) as Hlt.
  assert (Hres2 : self_results s2 = Some (length (heap s)))
    by (subst s2; destruct s1; exact Hres).
  assert (Hheap2 : heap s2 = <[lc := v']> (heap s ++ [PDict b]))
    by (subst s2; rewrite <- Hheap; by destruct s1).
  assert (Hl1 : heap s1 !! length (heap s) = Some (PDict b))
    by (rewrite Hheap; apply lookup_at_end).
  assert (Hl2 : heap s2 !! length (heap s) = Some (PDict b)).
  { rewrite Hheap2, list_lookup_insert_ne by lia. apply lookup_at_end. }
  split_and!.
  - rewrite Hheap2. apply list_lookup_insert_eq. rewrite length_app. lia.
  - by exists (length (heap s)).
  - rewrite (flattened_run s2 _ b Hres2 Hl2), (flattened_run s1 _ b Hres Hl1).
    subst s2. by destruct s1.
  - rewrite (log_results_as_artifact_run py_str s2 _ _ Hres2 Hl2),
      (log_results_as_artifact_run py_str s1 _ _ Hres Hl1).
    subst s2. by destruct s1.
Qed.

End OutOfOrder.

(** ** The constructor, whatever the SDK's version *)

Lemma warning_calls_version_warning v :
  warning_calls (version_warning v) =
  if Version_ge v minimum_version then [] else [AssertionError].
Proof. unfold version_warning. by destruct (Version_ge _ _). Qed.

Lemma init_calls_version_warning v : init_calls (version_warning v) = [].
Proof. unfold version_warning. by destruct (Version_ge _ _). Qed.

(** Property X10. The version check of the constructor only warns. From
    every state and for all keyword arguments, the constructor logs exactly
    one warning, with the import error, when the SDK is missing, exactly
    one, with the failed assertion, when the SDK is older than 0.13.6, and
    none otherwise. With the SDK missing the constructor then raises
    [UnboundLocalError], whatever its keyword arguments. *)
Theorem init_version_check_only_warns kwargs s :
  warning_calls (events (fst (__init__ kwargs s))) =
    warning_calls (events s) ++
    match wandb_installed s with
    | None => [ModuleNotFoundError "wandb"]
    | Some v => if Version_ge v minimum_version then [] else [AssertionError]
    end /\
  (wandb_installed s = None ->
   snd (__init__ kwargs s) = inl (UnboundLocalError "wandb")).
Proof.
  split.
  - destruct (wandb_installed s) as [v|] eqn:Hw.
    + rewrite (init_run_installed kwargs s v Hw). cbv zeta.
      destruct s. cbn [fst]. state_cbv.
      rewrite !warning_calls_app, warning_calls_version_warning.
      destruct wandb_run0; simpl; by rewrite app_nil_r.
    + rewrite (init_run_missing kwargs s Hw).
      destruct s. cbn [fst]. state_cbv. by rewrite warning_calls_app.
  - intros Hw. by rewrite (init_run_missing kwargs s Hw).
Qed.

(** Property X11. A second logger attaches to the run the first one started.
    With the SDK installed and no active run, the first constructor starts a
    run with its remaining keyword arguments; a second constructor then
    finds that run active, takes it as its own and makes no [wandb.init]
    call, so its keyword arguments other than [step] and [step_key] reach
    nothing. *)
Theorem second_init_reuses_run kwargs1 kwargs2 s v :
  wandb_installed s = Some v ->
  wandb_run s = None ->
  let s1 := fst (__init__ kwargs1 s) in
  let s2 := fst (__init__ kwargs2 s1) in
  self_run s1 = Some (runs_started s) /\
  self_run s2 = Some (runs_started s) /\
  wandb_run s2 = Some (runs_started s) /\
  runs_started s2 = S (runs_started s) /\
  init_calls (events s2) =
    init_calls (events s) ++ [remaining_kwargs kwargs1] /\
  self_step s2 = Some (step_of kwargs2) /\
  self_step_key s2 = Some (step_key_of kwargs2).
Proof.
  intros Hw Hrun s1 s2. subst s2 s1.
  destruct s as [h wi wr rs rl ev fw a_args a_step a_key a_run a_pr a_res
                   a_tn a_wr].
  state_cbn_in Hw. state_cbn_in Hrun. subst wi wr.
  erewrite (init_run_installed kwargs1); [|reflexivity].
  cbn [fst]. state_cbv.
  erewrite (init_run_installed kwargs2); [|reflexivity].
  cbn [fst]. state_cbv.
  split_and!; try reflexivity.
  rewrite !init_calls_app, !init_calls_version_warning. simpl.
  by rewrite !app_nil_r.
Qed.

(** ** The properties above on the example bundle *)

Lemma elem_of_dkeys_slash_free (names : list string) :
  forallb (fun name => negb (has_slash name)) names = true ->
  forall name, name ∈ names -> has_slash name = false.
Proof.
  intros H name Hin. rewrite forallb_forall in H.
  apply negb_true_iff, H. by apply list_elem_of_In.
Qed.

Lemma example_tasks_ok : Forall task_ok example_tasks.
Proof.
  apply Forall_singleton. eexists. split; [reflexivity|].
  by apply nodupb_NoDup.
Qed.


Lemma step_key_overrides_metric_witness :
  let s := constructed [("step", PInt 3); ("step_key", PStr "taskA/acc")]
             [PDict example_bundle] in
  let s' := fst ((post_init 0 ;;; log_eval_result name_str) s) in
  exists calls payload l,
    events s' = events s ++ calls ++ [EvLog 0 (PDict payload)] /\
    self_wandb_results s' = Some l /\
    heap s' !! l = Some (PDict payload) /\
    dget "taskA/acc" payload = Some (PInt 3) /\
    dkeys payload = ["taskA/acc"; "taskA/acc_stderr"].
Proof.
  intros s s'.
  destruct (step_key_overrides_metric name_str s 0 example_bundle
              example_tasks 0 (PInt 3) "taskA/acc")
    as (calls & payload & l & H1 & H2 & H3 & H4 & _ & H6 & _).
  - reflexivity.
  - reflexivity.
  - by apply nodupb_NoDup.
  - apply example_tasks_ok.
  - by apply elem_of_dkeys_slash_free.
  - reflexivity.
  - reflexivity.
  - reflexivity.
  - exists calls, payload, l.
    split_and!; [exact H1|exact H2|exact H3|exact H4|].
    apply H6. apply list_elem_of_here.
Defined.

Lemma non_mapping_task_raises_witness :
  let s := initial_state [PDict [("results", PDict malformed_tasks)]]
             None None in
  snd (post_init 0 s) = inr tt /\
  snd ((post_init 0 ;;; _sanitize_results_dict) s)
  = inl (AttributeError "items").
Proof.
  intros s.
  apply (non_mapping_task_raises s 0 [("results", PDict malformed_tasks)]
           [("t", PDict [("acc", PInt 1)])] "u" (PInt 5) []).
  - reflexivity.
  - reflexivity.
  - by apply nodupb_NoDup.
  - by apply elem_of_dkeys_slash_free.
  - apply Forall_singleton. eexists. split; [reflexivity|].
    by apply nodupb_NoDup.
  - discriminate.
Defined.

Lemma post_init_fails_after_storing_copy_witness :
  let s := initial_state [PDict [("results", PNone)]] None None in
  snd (post_init 0 s) = inl (AttributeError "keys") /\
  self_results (fst (post_init 0 s)) = Some 1 /\
  heap (fst (post_init 0 s)) !! 1 = Some (PDict [("results", PNone)]) /\
  self_task_names (fst (post_init 0 s)) = None.
Proof.
  intros s.
  apply (post_init_fails_after_storing_copy s 0 [("results", PNone)] PNone).
  - reflexivity.
  - reflexivity.
  - discriminate.
Defined.

Lemma log_eval_result_before_post_init_witness :
  let s := initial_state [] (Some (plain_release [0; 16; 0])) None in
  let s1 := fst (__init__ [] s) in
  snd (__init__ [] s) = inr tt /\
  log_eval_result name_str s1 = (s1, inl (AttributeError "results")).
Proof.
  intros s.
  apply (log_eval_result_before_post_init name_str [] s
           (plain_release [0; 16; 0])); reflexivity.
Defined.

Lemma failed_flattening_after_config_update_witness :
  let s := fst (post_init 0
                  (constructed [] [PDict [("results", PDict malformed_tasks)]]))
  in
  let run := log_eval_result name_str s in
  snd run = inl (AttributeError "items") /\
  events (fst run) =
    events s ++ [EvConfigUpdate 0 [("bigcode_eval", PDict [])] true] /\
  self_wandb_results (fst run) = None.
Proof.
  intros s.
  apply (failed_flattening_after_config_update name_str s 0 1
           [("results", PDict malformed_tasks)] (PInt 0) "train/step"
           (AttributeError "items")); reflexivity.
Defined.

Lemma second_init_reuses_run_witness :
  let s := initial_state [] (Some (plain_release [0; 16; 0])) None in
  let s1 := fst (__init__ [("project", PStr "a")] s) in
  let s2 := fst (__init__ [("project", PStr "b")] s1) in
  self_run s1 = Some 0 /\
  self_run s2 = Some 0 /\
  wandb_run s2 = Some 0 /\
  runs_started s2 = 1 /\
  init_calls (events s2) = [[("project", PStr "a")]] /\
  self_step s2 = Some (PInt 0) /\
  self_step_key s2 = Some (PStr "train/step").
Proof.
  intros s.
  apply (second_init_reuses_run [("project", PStr "a")]
           [("project", PStr "b")] s (plain_release [0; 16; 0]));
    reflexivity.
Defined.

Lemma attached_bundle_is_a_snapshot_witness :
  let s := initial_state [PDict example_bundle] None None in
  let s1 := fst (post_init 0 s) in
  let s2 := fst (store 0 (PDict []) s1) in
  heap s2 !! 0 = Some (PDict []) /\
  (exists l0, self_results s2 = Some l0 /\
              heap s2 !! l0 = Some (PDict example_bundle)) /\
  flattened s2 = flattened s1 /\
  snd (_log_results_as_artifact name_str s2)
  = snd (_log_results_as_artifact name_str s1).
Proof.
  intros s.
  apply (attached_bundle_is_a_snapshot name_str s 0 example_bundle (PDict [])).
  reflexivity.
Defined.

(** ** Attaching a second bundle *)

Lemma flattened_after_post_init s lc b :
  heap s !! lc = Some (PDict b) ->
  flattened (fst (post_init lc s)) =
    match stored_tasks b with
    | PDict ts =>
        match sanitize_outcome (PDict ts) (Some (dkeys ts)) with
        | inl e => inl e
        | inr flat => inr (Some (PDict flat))
        end
    | _ => inl (AttributeError "items")
    end.
Proof.
  intros Hl.
  destruct (post_init_stores_copy s lc (PDict b) Hl) as [Hres Hheap].
  cbv zeta in Hres, Hheap.
  rewrite (flattened_run _ (length (heap s)) b Hres)
    by (rewrite Hheap; apply lookup_at_end).
  rewrite (post_init_run s lc b Hl). cbv zeta.
  by destruct (stored_tasks b).
Qed.

(** Property X13. Attaching a bundle replaces the previous one entirely:
    after two calls of [post_init], whether or not the first one raised,
    the logger holds a copy of the second bundle, and
    [_sanitize_results_dict] returns what it returns when only the second
    bundle was ever attached; nothing of the first bundle's tasks or task
    names is left. *)
Theorem post_init_replaces_bundle s lc1 lc2 b1 b2 :
  heap s !! lc1 = Some (PDict b1) ->
  heap s !! lc2 = Some (PDict b2) ->
  let s2 := fst (post_init lc2 (fst (post_init lc1 s))) in
  (exists l0, self_results s2 = Some l0 /\ heap s2 !! l0 = Some (PDict b2)) /\
  flattened s2 = flattened (fst (post_init lc2 s)).
Proof.
  intros Hl1 Hl2 s2. subst s2.
  destruct (post_init_stores_copy s lc1 (PDict b1) Hl1) as [_ Hheap1].
  cbv zeta in Hheap1.
  assert (Hl2' : heap (fst (post_init lc1 s)) !! lc2 = Some (PDict b2))
    by (rewrite Hheap1; by apply lookup_app_l_Some).
  split.
  - destruct (post_init_stores_copy _ lc2 (PDict b2) Hl2') as [Hres Hheap].
    cbv zeta in Hres, Hheap. eexists. split; [exact Hres|].
    rewrite Hheap. apply lookup_at_end.
  - by rewrite (flattened_after_post_init _ lc2 b2 Hl2'),
      (flattened_after_post_init s lc2 b2 Hl2).
Qed.

Lemma post_init_replaces_bundle_witness :
  let s := initial_state
             [PDict [("results", PDict malformed_tasks)]; PDict example_bundle]
             None None in
  let s2 := fst (post_init 1 (fst (post_init 0 s))) in
  (exists l0, self_results s2 = Some l0 /\
              heap s2 !! l0 = Some (PDict example_bundle)) /\
  flattened s2 = flattened (fst (post_init 1 s)).
Proof.
  intros s.
  apply (post_init_replaces_bundle s 0 1
           [("results", PDict malformed_tasks)] example_bundle);
    reflexivity.
Defined.

(** ** The fallback, and mappings with keys of any kind *)

Section KeyedBundles.

Variable py_str : pyval -> string.
Variable number_text : pyval -> string.

Local Abbreviation fallback := (_handle_non_serializable py_str).

Lemma json_key_acceptable k :
  key_acceptable k = true -> exists text, json_key number_text k = inr text.
Proof. destruct k as [|[]| | | | | | | | | |]; try done; by eexists. Qed.

Lemma json_key_refused k :
  key_acceptable k = false ->
  json_key number_text k =
  inl (TypeError "keys must be str, int, float, bool or None").
Proof. by destruct k as [|[]| | | | | | | | | |]. Qed.

Lemma encode_tree_never_type_error depth t msg :
  keys_acceptable t = true ->
  json_encode_tree number_text depth (Some fallback) t <> inl (TypeError msg).
Proof.
  revert t. induction depth as [|depth IH]; intros t Hk; [done|].
  destruct t as [o|xs|xs|items]; cbn [json_encode_tree].
  - apply encode_never_type_error.
  - cbn [keys_acceptable] in Hk. rewrite forallb_forall in Hk.
    destruct (traverse _ xs) as [e|js] eqn:Ht; [|done].
    apply traverse_inl in Ht as (x & Hin & Hx). intros [= ->].
    apply (IH x); [|done]. apply Hk. by apply list_elem_of_In.
  - cbn [keys_acceptable] in Hk. rewrite forallb_forall in Hk.
    destruct (traverse _ xs) as [e|js] eqn:Ht; [|done].
    apply traverse_inl in Ht as (x & Hin & Hx). intros [= ->].
    apply (IH x); [|done]. apply Hk. by apply list_elem_of_In.
  - cbn [keys_acceptable] in Hk. rewrite forallb_forall in Hk.
    destruct (traverse _ items) as [e|ms] eqn:Ht; [|done].
    apply traverse_inl in Ht as (kv & Hin & Hx). intros [= ->].
    apply list_elem_of_In, Hk, andb_true_iff in Hin as [Hkey Hval].
    destruct (json_key_acceptable _ Hkey) as (text & Htext).
    rewrite Htext in Hx.
    destruct (json_encode_tree number_text depth (Some fallback) (snd kv))
      as [e|j] eqn:He; [|done].
    injection Hx as ->. by apply (IH (snd kv)).
Qed.

(** Claim C3, as amended.  The fallback tests for a sized integer
    ([np.int64], [np.int32]) first, then for a [set], and otherwise takes
    the string; what it returns the encoder writes directly.  The encoder
    calls it exactly on the values it cannot write itself.  With it no
    value held in a bundle makes the encoder raise a [TypeError], provided
    the keys of the bundle's mappings are of the kinds the encoder accepts
    (strings, as in the forwarder's bundles, or numbers, booleans and
    [None]); and the exception that ends [_log_results_as_artifact] is
    never a [TypeError]. *)
Theorem fallback_policy o t depth msg :
  keys_acceptable t = true ->
  fallback o =
    match isinstance_sized_int o with
    | Some z => PInt z
    | None =>
        match isinstance_set o with
        | Some xs => PList xs
        | None => PStr (py_str o)
        end
    end /\
  natively_serializable (fallback o) = true /\
  (if natively_serializable o then True
   else json_encode (S depth) (Some fallback) o =
        json_encode depth (Some fallback) (fallback o)) /\
  json_encode depth (Some fallback) o <> inl (TypeError msg) /\
  json_encode_tree number_text depth (Some fallback) t
    <> inl (TypeError msg) /\
  artifact_error py_str depth o <> TypeError msg.
Proof.
  intros Hk. split_and!.
  - apply fallback_in_order.
  - apply fallback_native.
  - destruct (natively_serializable o) eqn:Hn; [done|].
    by apply encode_fallback.
  - apply encode_never_type_error.
  - by apply encode_tree_never_type_error.
  - unfold artifact_error.
    destruct (json_encode depth (Some fallback) o) as [e|j] eqn:He; [|done].
    intros ->. by apply (encode_never_type_error py_str depth o msg).
Qed.

End KeyedBundles.

Lemma fallback_policy_witness :
  let t := TDict [(PStr "results",
                   TValue (PDict [("t", PDict [("n", PNpInt64 7);
                                               ("tags", PSet [PStr "a"])])]));
                  (PInt 1, TList [TValue (PObject "<Model>")])] in
  keys_acceptable t = true /\
  _handle_non_serializable name_str (PSet [PStr "a"]) = PList [PStr "a"] /\
  json_encode_tree name_str 10 (Some (_handle_non_serializable name_str)) t
    <> inl (TypeError "Object is not JSON serializable").
Proof.
  intros t. split; [reflexivity|].
  destruct (fallback_policy name_str name_str (PSet [PStr "a"]) t 10
              "Object is not JSON serializable" eq_refl)
    as (H1 & _ & _ & _ & H5 & _).
  split; [exact H1|exact H5].
Defined.

(** Claim C3 as stated fails for a bundle that holds a mapping with a key
    the encoder does not accept: the fallback is consulted for values
    only, so a tuple or a sized integer used as a key makes the
    serialization raise a [TypeError], with the fallback as without it. *)
Lemma non_string_key_raises_type_error :
  let fallback := _handle_non_serializable name_str in
  let bundle :=
    TDict [(PStr "results", TValue (PDict []));
           (PStr "config",
            TDict [(PTuple [PInt 1; PInt 2], TValue (PInt 3))])] in
  let sized := TDict [(PNpInt64 7, TValue (PInt 3))] in
  keys_acceptable bundle = false /\
  json_encode_tree name_str 1000 (Some fallback) bundle
  = inl (TypeError "keys must be str, int, float, bool or None") /\
  json_encode_tree name_str 1000 None bundle
  = inl (TypeError "keys must be str, int, float, bool or None") /\
  json_encode_tree name_str 1000 (Some fallback) sized
  = inl (TypeError "keys must be str, int, float, bool or None") /\
  fallback (PNpInt64 7) = PInt 7.
Proof. vm_compute. by split_and!. Qed.

(** ** Bundles without results or without configuration *)

Section MissingKeys.

Variable py_str : pyval -> string.




End MissingKeys.



Lemma init_version_check_only_warns_witness :
  let s := initial_state [] None None in
  warning_calls (events (fst (__init__ [("project", PStr "a")] s)))
  = [ModuleNotFoundError "wandb"] /\
  snd (__init__ [("project", PStr "a")] s) = inl (UnboundLocalError "wandb").
Proof.
  intros s.
  destruct (init_version_check_only_warns [("project", PStr "a")] s)
    as [H1 H2].
  split; [exact H1|]. apply H2. reflexivity.
Defined.
